(** * Dual camera controller: a shallow embedding of [dual_cam_capture.py]

    The controller object of [DualCameraController] becomes a record, the
    methods become computations in a small state-and-exception monad, and
    every call that leaves the program (the camera driver, the image
    codec, the window, the clock, the file system, standard output) is
    appended to a trace.  What the outside world answers is given by an
    environment that sees the whole history of calls, so the theorems
    hold for every behaviour of the devices, faults included. *)

From Stdlib Require Import ZArith Lia Ascii String.
From stdpp Require Import base list strings pretty.

Open Scope Z_scope.

(** ** Python values and exceptions *)

(** The values that the methods return or receive as [direction]. *)
Inductive pyval :=
| PyNone
| PyInt (n : Z)
| PyStr (s : string)
| PyTuple2 (a b : Z).

(** Python's [==] on the values above. *)
Definition py_eqb (x y : pyval) : bool :=
  match x, y with
  | PyNone, PyNone => true
  | PyInt a, PyInt b => a =? b
  | PyStr s, PyStr t => String.eqb s t
  | PyTuple2 a b, PyTuple2 c d => (a =? c) && (b =? d)
  | _, _ => false
  end.

(** [ord(c)] for a one-character string. *)
Definition ord (c : ascii) : Z := Z.of_N (N_of_ascii c).

(** [seq[i]] resolves an index as Python does: [0 .. len-1] from the
    front, [-len .. -1] from the back, anything else is an [IndexError]. *)
Definition py_index (len : nat) (i : Z) : option nat :=
  if (0 <=? i) && (i <? Z.of_nat len) then Some (Z.to_nat i)
  else if (- Z.of_nat len <=? i) && (i <? 0) then Some (Z.to_nat (Z.of_nat len + i))
  else None.

(** [len(l)] *)
Definition len {A} (l : list A) : Z := Z.of_nat (length l).

(** ** The outside world *)

(** A camera object, named by the device index it was opened with. *)
Inductive camera := Picam (index : Z).

(** The dictionary built by [create_preview_configuration]. *)
Record config := Config {
  main_size : Z * Z;
  lores_size : Z * Z;
  display : string;
}.

Section Controller.

(** Decoded frames are numpy arrays; their content is the codec's
    business. *)
Context {Frame : Type}.

(** Calls that leave the program, as they appear in the trace. *)
Inductive call :=
| PathExists (path : string)
| Makedirs (path : string)
| OpenCamera (index : Z)
| CreatePreviewConfiguration (cam : camera) (cfg : config)
| Configure (cam : camera) (cfg : config)
| Start (cam : camera)
| Stop (cam : camera)
| CaptureArray (cam : camera)
| SetControls (cam : camera) (name : string) (value : Z)
| Strftime (fmt : string)
| Imwrite (filename : string) (img : Frame)
| Imshow (winname : string) (img : Frame)
| WaitKey (delay : Z)
| DestroyAllWindows
| Print (line : string).

Inductive exn :=
| IndexError
| ZeroDivisionError
| Fault (c : call)
| SystemExit (code : Z).

(** The pure image operations of cv2 and numpy that the program uses.
    The floating point constants of the source are fixed in the names:
    [addWeighted_half dst src] is [addWeighted(dst, 0.5, src, 0.5, 0)],
    [putText] draws in FONT_HERSHEY_SIMPLEX at scale 0.5. *)
Record ImageOps := {
  shape : Frame -> Z * Z;
  convertScaleAbs : Frame -> Z -> Z -> Frame;
  rectangle : Frame -> Z * Z -> Z * Z -> Z * Z * Z -> Z -> Frame;
  addWeighted_half : Frame -> Frame -> Frame;
  putText : Frame -> string -> Z * Z -> Z * Z * Z -> Z -> Frame;
  cvtColor_RGB2BGR : Frame -> Frame;
  hstack : list Frame -> Frame;
}.

(** What the world answers to a call, given everything that was called
    before.  [faults h c] says that call [c] raises after history [h]; a
    capture that delivers no data counts as a fault of the capture. *)
Record Env := {
  faults : list call -> call -> bool;
  captured : list call -> camera -> Frame;
  path_exists : list call -> string -> bool;
  localtime : list call -> string -> string;
  message : exn -> string;
}.

Context (cv : ImageOps) (env : Env).

(** ** The controller object *)

Record controller := Controller {
  cameras : list camera;
  active_camera : Z;
  preview_active : bool;
  exposure_values : list Z;
  brightness_values : list Z;
  resolution_options : list (Z * Z);
  current_resolution_idx : Z;
  save_directory : string;
}.

Record world := World {
  self : controller;
  trace : list call;
}.

(** ** The monad: state, and Python exceptions *)

Inductive result (A : Type) :=
| Ok (a : A)
| Raise (e : exn).
Arguments Ok {A} a.
Arguments Raise {A} e.

Definition M (A : Type) : Type := world -> world * result A.

#[global] Instance M_ret : MRet M := fun A a w => (w, Ok a).

#[global] Instance M_bind : MBind M := fun A B f m w =>
  match m w with
  | (w', Ok a) => f a w'
  | (w', Raise e) => (w', Raise e)
  end.

Definition raise {A} (e : exn) : M A := fun w => (w, Raise e).

Definition get_self : M controller := fun w => (w, Ok (self w)).

Definition update (f : controller -> controller) : M unit :=
  fun w => (World (f (self w)) (trace w), Ok tt).

(** Append a call to the trace. *)
Definition log (c : call) : M unit :=
  fun w => (World (self w) (trace w ++ [c]), Ok tt).

(** A call to the outside that may raise: it is logged, then the
    environment decides whether it raises and, if not, what it returns. *)
Definition ask {A} (c : call) (answer : list call -> A) : M A :=
  fun w =>
    (World (self w) (trace w ++ [c]),
     if faults env (trace w) c then Raise (Fault c) else Ok (answer (trace w))).

Definition invoke (c : call) : M unit := ask c (fun _ => tt).

(** [print] writes a line, [time.strftime] reads the clock; neither
    fails. *)
Definition print (line : string) : M unit := log (Print line).

Definition strftime (fmt : string) : M string :=
  fun w => (World (self w) (trace w ++ [Strftime fmt]), Ok (localtime env (trace w) fmt)).

(** [try: body  except Exception: handler]; [SystemExit] is not an
    [Exception] and passes through. *)
Definition try_except {A} (body : M A) (handler : exn -> M A) : M A :=
  fun w =>
    match body w with
    | (w', Raise (SystemExit n)) => (w', Raise (SystemExit n))
    | (w', Raise e) => handler e w'
    | r => r
    end.

(** [l[i]] *)
Definition getitem {A} (l : list A) (i : Z) : M A :=
  match py_index (length l) i with
  | Some n => match l !! n with Some x => mret x | None => raise IndexError end
  | None => raise IndexError
  end.

(** [l[i] = x], giving the new list *)
Definition setitem {A} (l : list A) (i : Z) (x : A) : M (list A) :=
  match py_index (length l) i with
  | Some n => mret (<[n:=x]> l)
  | None => raise IndexError
  end.

(** [for x in l: body x] *)
Fixpoint for_each {A} (l : list A) (body : A -> M unit) : M unit :=
  match l with
  | [] => mret tt
  | x :: l' => body x;; for_each l' body
  end.

(** The same loop with a local variable that the body updates. *)
Fixpoint for_fold {A S} (l : list A) (body : S -> A -> M S) (s : S) : M S :=
  match l with
  | [] => mret s
  | x :: l' => s' ← body s x; for_fold l' body s'
  end.

(** [enumerate(l)] *)
Definition enumerate {A} (l : list A) : list (Z * A) :=
  imap (fun i x => (Z.of_nat i, x)) l.

(** [range(2)] *)
Definition range2 : list Z := [0; 1].

(** ** Field updates *)

Definition set_cameras (v : list camera) (s : controller) : controller :=
  Controller v (active_camera s) (preview_active s) (exposure_values s)
    (brightness_values s) (resolution_options s) (current_resolution_idx s)
    (save_directory s).

Definition set_active_camera (v : Z) (s : controller) : controller :=
  Controller (cameras s) v (preview_active s) (exposure_values s)
    (brightness_values s) (resolution_options s) (current_resolution_idx s)
    (save_directory s).

Definition set_preview_active (v : bool) (s : controller) : controller :=
  Controller (cameras s) (active_camera s) v (exposure_values s)
    (brightness_values s) (resolution_options s) (current_resolution_idx s)
    (save_directory s).

Definition set_exposure_values (v : list Z) (s : controller) : controller :=
  Controller (cameras s) (active_camera s) (preview_active s) v
    (brightness_values s) (resolution_options s) (current_resolution_idx s)
    (save_directory s).

Definition set_brightness_values (v : list Z) (s : controller) : controller :=
  Controller (cameras s) (active_camera s) (preview_active s) (exposure_values s)
    v (resolution_options s) (current_resolution_idx s) (save_directory s).

Definition set_current_resolution_idx (v : Z) (s : controller) : controller :=
  Controller (cameras s) (active_camera s) (preview_active s) (exposure_values s)
    (brightness_values s) (resolution_options s) v (save_directory s).

(** ** [DualCameraController] *)

(** The fields as [__init__] sets them, before [setup_cameras]. *)
Definition init_fields : controller := {|
  cameras := [];
  active_camera := 0;
  preview_active := true;
  exposure_values := [0; 0];
  brightness_values := [0; 0];
  resolution_options := [(640, 480); (1280, 720); (1920, 1080); (2592, 1944)];
  current_resolution_idx := 0;
  save_directory := "camera_captures";
|}.

Definition create_preview_configuration (cam : camera) (main lores : Z * Z)
    (disp : string) : M config :=
  let cfg := Config main lores disp in
  ask (CreatePreviewConfiguration cam cfg) (fun _ => cfg).

Definition setup_cameras : M pyval :=
  try_except
    (s ← get_self;
     present ← ask (PathExists (save_directory s))
                 (fun h => path_exists env h (save_directory s));
     (if negb present then invoke (Makedirs (save_directory s)) else mret tt);;
     for_each range2 (fun i =>
       cam ← ask (OpenCamera i) (fun _ => Picam i);
       s ← get_self;
       size ← getitem (resolution_options s) (current_resolution_idx s);
       cfg ← create_preview_configuration cam size (640, 480) "lores";
       invoke (Configure cam cfg);;
       invoke (Start cam);;
       update (fun s => set_cameras (cameras s ++ [cam]) s));;
     print "Both cameras initialized successfully";;
     mret PyNone)
    (fun e =>
       print ("Error initializing cameras: " +:+ message env e);;
       raise (SystemExit 1)).

Definition init : M pyval :=
  update (fun _ => init_fields);;
  setup_cameras.

(** The boolean that [cv2.imwrite] returns is discarded by the source,
    so the write is a call that either raises or is taken as done. *)
Definition capture_image (camera_idx : Z) : M pyval :=
  timestamp ← strftime "%Y%m%d_%H%M%S";
  s ← get_self;
  let filename := save_directory s +:+ "/camera" +:+ pretty (camera_idx + 1)
                  +:+ "_" +:+ timestamp +:+ ".jpg" in
  cam ← getitem (cameras s) camera_idx;
  img ← ask (CaptureArray cam) (fun h => captured env h cam);
  b ← getitem (brightness_values s) camera_idx;
  img ← (if negb (b =? 0)
         then beta ← getitem (brightness_values s) camera_idx;
              mret (convertScaleAbs cv img 1 beta)
         else mret img);
  invoke (Imwrite filename img);;
  print ("Image saved as " +:+ filename);;
  mret (PyStr filename).

(** The body of the loop of [change_resolution] (lines 75-82). *)
Definition reconfigure (resolution : Z * Z) (cam : camera) : M unit :=
  invoke (Stop cam);;
  cfg ← create_preview_configuration cam resolution (640, 480) "lores";
  invoke (Configure cam cfg);;
  invoke (Start cam).

Definition change_resolution : M pyval :=
  s ← get_self;
  (if len (resolution_options s) =? 0 then raise ZeroDivisionError
   else update (set_current_resolution_idx
                  ((current_resolution_idx s + 1) `mod` len (resolution_options s))));;
  s ← get_self;
  resolution ← getitem (resolution_options s) (current_resolution_idx s);
  for_each (enumerate (cameras s)) (fun '(i, cam) => reconfigure resolution cam);;
  print ("Resolution changed to " +:+ pretty (fst resolution) +:+ "x"
         +:+ pretty (snd resolution));;
  mret PyNone.

Definition adjust_exposure (camera_idx : Z) (direction : pyval) : M pyval :=
  let step := 1 in
  s ← get_self;
  (if py_eqb direction (PyStr "up") then
     v ← getitem (exposure_values s) camera_idx;
     l ← setitem (exposure_values s) camera_idx (Z.min 8 (v + step));
     update (set_exposure_values l)
   else
     v ← getitem (exposure_values s) camera_idx;
     l ← setitem (exposure_values s) camera_idx (Z.max (-8) (v - step));
     update (set_exposure_values l));;
  s ← get_self;
  cam ← getitem (cameras s) camera_idx;
  v ← getitem (exposure_values s) camera_idx;
  invoke (SetControls cam "ExposureValue" v);;
  v ← getitem (exposure_values s) camera_idx;
  print ("Camera " +:+ pretty (camera_idx + 1) +:+ " exposure compensation: "
         +:+ pretty v);;
  mret PyNone.

Definition adjust_brightness (camera_idx : Z) (direction : pyval) : M pyval :=
  let step := 5 in
  s ← get_self;
  (if py_eqb direction (PyStr "up") then
     v ← getitem (brightness_values s) camera_idx;
     l ← setitem (brightness_values s) camera_idx (Z.min 100 (v + step));
     update (set_brightness_values l)
   else
     v ← getitem (brightness_values s) camera_idx;
     l ← setitem (brightness_values s) camera_idx (Z.max (-100) (v - step));
     update (set_brightness_values l));;
  s ← get_self;
  v ← getitem (brightness_values s) camera_idx;
  print ("Camera " +:+ pretty (camera_idx + 1) +:+ " brightness: " +:+ pretty v);;
  mret PyNone.

Definition add_info_overlay (frame : Frame) (camera_idx : Z) : M Frame :=
  let '(height, width) := shape cv frame in
  timestamp ← strftime "%Y-%m-%d %H:%M:%S";
  let resolution := pretty width +:+ "x" +:+ pretty height in
  s ← get_self;
  ev ← getitem (exposure_values s) camera_idx;
  b ← getitem (brightness_values s) camera_idx;
  let info_text :=
    [ "Camera " +:+ pretty (camera_idx + 1) +:+ " "
        +:+ (if camera_idx =? active_camera s then "(ACTIVE)" else "");
      "Time: " +:+ timestamp;
      "Resolution: " +:+ resolution;
      "Exposure: " +:+ pretty ev;
      "Brightness: " +:+ pretty b ] in
  let overlay := rectangle cv frame (10, 10) (300, 110) (0, 0, 0) (-1) in
  let frame := addWeighted_half cv overlay frame in
  let frame :=
    fold_left (fun f '(i, text) => putText cv f text (20, 35 + i * 20) (255, 255, 255) 1)
      (enumerate info_text) frame in
  let frame :=
    if camera_idx =? active_camera s
    then rectangle cv frame (0, 0) (width - 1, height - 1) (0, 255, 0) 2
    else frame in
  mret frame.

(** *** [run] *)

(** The body of the first loop of [run] up to the overlay (lines
    157-164). *)
Definition grab_frame (i : Z) (cam : camera) : M Frame :=
  frame ← ask (CaptureArray cam) (fun h => captured env h cam);
  s ← get_self;
  b ← getitem (brightness_values s) i;
  frame ← (if negb (b =? 0)
           then beta ← getitem (brightness_values s) i;
                mret (convertScaleAbs cv frame 1 beta)
           else mret frame);
  add_info_overlay frame i.

(** Lines 155-165: one processed frame per camera, in list order. *)
Definition capture_frames : M (list Frame) :=
  s ← get_self;
  for_fold (enumerate (cameras s)) (fun frames '(i, cam) =>
    frame ← grab_frame i cam;
    mret (frames ++ [frame])) [].

(** Lines 168-171. *)
Definition show_preview (frames : list Frame) : M unit :=
  s ← get_self;
  if preview_active s then
    let combined_frame := hstack cv (map (cvtColor_RGB2BGR cv) frames) in
    invoke (Imshow "Dual Camera Preview" combined_frame)
  else mret tt.

(** How an iteration of [while True] ends: on to the next one, or
    [break]. *)
Inductive flow := Next | Break.

(** Lines 176-225: the chain of [if]/[elif] on the key. *)
Definition handle_key (key : Z) : M flow :=
  if key =? ord "q" then
    mret Break
  else if key =? ord "1" then
    update (set_active_camera 0);;
    print "Camera 1 selected";;
    mret Next
  else if key =? ord "2" then
    update (set_active_camera 1);;
    print "Camera 2 selected";;
    mret Next
  else if key =? ord "s" then
    s ← get_self;
    capture_image (active_camera s);;
    mret Next
  else if key =? ord "d" then
    for_each range2 (fun i => capture_image i;; mret tt);;
    mret Next
  else if key =? ord "r" then
    change_resolution;;
    mret Next
  else if key =? ord "e" then
    s ← get_self;
    adjust_exposure (active_camera s) (PyStr "up");;
    mret Next
  else if key =? ord "c" then
    s ← get_self;
    adjust_exposure (active_camera s) (PyStr "down");;
    mret Next
  else if key =? ord "b" then
    s ← get_self;
    adjust_brightness (active_camera s) (PyStr "up");;
    mret Next
  else if key =? ord "v" then
    s ← get_self;
    adjust_brightness (active_camera s) (PyStr "down");;
    mret Next
  else if key =? ord "p" then
    update (fun s => set_preview_active (negb (preview_active s)) s);;
    s ← get_self;
    (if preview_active s then print "Preview resumed" else print "Preview paused");;
    mret Next
  else
    mret Next.

(** One pass through the body of [while True]; [pressed] is what
    [cv2.waitKey(1)] returns this time. *)
Definition iteration (pressed : Z) : M flow :=
  frames ← capture_frames;
  show_preview frames;;
  raw ← ask (WaitKey 1) (fun _ => pressed);
  let key := Z.land raw 255 in
  handle_key key.

(** The loop, driven by the successive answers of [waitKey].  [Next]
    at the end of the input means that the loop is still going. *)
Fixpoint main_loop (keys : list Z) : M flow :=
  match keys with
  | [] => mret Next
  | pressed :: keys' =>
      f ← iteration pressed;
      match f with
      | Break => mret Break
      | Next => main_loop keys'
      end
  end.

Definition banner : list string :=
  [ String "010" "Dual Camera Controller Started";
    "--------------------------------";
    "Controls:";
    "  1, 2      - Select Camera 1 or 2";
    "  s         - Save image from active camera";
    "  d         - Save images from both cameras";
    "  r         - Change resolution";
    "  e/c       - Increase/decrease exposure of active camera";
    "  b/v       - Increase/decrease brightness of active camera";
    "  p         - Pause/resume preview";
    "  q         - Quit application";
    "--------------------------------" ].

Definition run (keys : list Z) : M flow :=
  for_each banner print;;
  f ← main_loop keys;
  match f with
  | Next => mret Next
  | Break =>
      invoke DestroyAllWindows;;
      s ← get_self;
      for_each (cameras s) (fun cam => invoke (Stop cam));;
      print "Application terminated";;
      mret Break
  end.

End Controller.

Arguments Ok {Frame A} a.
Arguments Raise {Frame A} e.
Arguments result : clear implicits.
Arguments call : clear implicits.
Arguments exn : clear implicits.
Arguments ImageOps : clear implicits.
Arguments Env : clear implicits.
Arguments world : clear implicits.
Arguments M : clear implicits.

(** ** Vocabulary of the properties *)

(** The two slots of the controller. *)
Definition valid_slot (i : Z) : Prop := i = 0 \/ i = 1.

(** A controller with two cameras and one exposure and one brightness
    value for each, as [__init__] builds it. *)
Definition shaped (s : controller) : Prop :=
  length (cameras s) = 2%nat /\
  length (exposure_values s) = 2%nat /\
  length (brightness_values s) = 2%nat.

Definition in_bounds (s : controller) : Prop :=
  Forall (fun v => -8 <= v <= 8) (exposure_values s) /\
  Forall (fun v => -100 <= v <= 100) (brightness_values s).

Definition going_up (direction : pyval) : bool := py_eqb direction (PyStr "up").

(** A call of [adjust_exposure] or of [adjust_brightness]. *)
Inductive adjustment :=
| AdjustExposure (camera_idx : Z) (direction : pyval)
| AdjustBrightness (camera_idx : Z) (direction : pyval).

Definition slot_of (a : adjustment) : Z :=
  match a with
  | AdjustExposure i _ | AdjustBrightness i _ => i
  end.

(** The list that the call steps, and the bound towards which it
    steps. *)
Definition parameter_of (a : adjustment) (s : controller) : list Z :=
  match a with
  | AdjustExposure _ _ => exposure_values s
  | AdjustBrightness _ _ => brightness_values s
  end.

Definition limit_of (a : adjustment) : Z :=
  match a with
  | AdjustExposure _ d => if going_up d then 8 else -8
  | AdjustBrightness _ d => if going_up d then 100 else -100
  end.

(** The step as the specification words it: one step of 1 (exposure)
    or 5 (brightness) up or down, clamped to the parameter's range. *)
Definition clamp (lo hi x : Z) : Z := Z.max lo (Z.min hi x).

Definition spec_step (a : adjustment) (v : Z) : Z :=
  match a with
  | AdjustExposure _ d => clamp (-8) 8 (if going_up d then v + 1 else v - 1)
  | AdjustBrightness _ d => clamp (-100) 100 (if going_up d then v + 5 else v - 5)
  end.

Definition adjust {Frame} (env : Env Frame) (a : adjustment) : M Frame pyval :=
  match a with
  | AdjustExposure i d => adjust_exposure env i d
  | AdjustBrightness i d => adjust_brightness i d
  end.

(** A sequence of calls, each made on the state that the previous one
    left, whether it returned or raised. *)
Fixpoint adjust_all {Frame} (env : Env Frame) (acts : list adjustment)
    (w : world Frame) : world Frame :=
  match acts with
  | [] => w
  | a :: acts' => adjust_all env acts' (fst (adjust env a w))
  end.

(** The index that [change_resolution] moves to. *)
Definition next_idx (s : controller) : Z :=
  (current_resolution_idx s + 1) `mod` len (resolution_options s).

(** [change_resolution] called [n] times in a row. *)
Fixpoint change_resolution_times {Frame} (env : Env Frame) (n : nat)
    (w : world Frame) : world Frame :=
  match n with
  | O => w
  | S n' => change_resolution_times env n' (fst (change_resolution env w))
  end.

(** The calls with which [change_resolution] renegotiates one camera. *)
Definition renegotiation {Frame} (size : Z * Z) (cam : camera) : list (call Frame) :=
  let cfg := Config size (640, 480) "lores" in
  [Stop cam; CreatePreviewConfiguration cam cfg; Configure cam cfg; Start cam].

(** The camera on which a call operates, if any. *)
Definition device_of {Frame} (c : call Frame) : option camera :=
  match c with
  | CreatePreviewConfiguration cam _ | Configure cam _ | Start cam | Stop cam
  | CaptureArray cam | SetControls cam _ _ => Some cam
  | _ => None
  end.

(** The keys that [run] reacts to. *)
Definition command_keys : list Z :=
  map ord ["q"; "1"; "2"; "s"; "d"; "r"; "e"; "c"; "b"; "v"; "p"]%char.

(** An environment in which no call ever raises. *)
Definition faultless {Frame} (env : Env Frame) : Prop :=
  forall h c, faults env h c = false.

(** The calls with which [setup_cameras] opens camera [i]. *)
Definition opening {Frame} (size : Z * Z) (i : Z) : list (call Frame) :=
  let cfg := Config size (640, 480) "lores" in
  [OpenCamera i; CreatePreviewConfiguration (Picam i) cfg; Configure (Picam i) cfg;
   Start (Picam i)].

(** The calls that a snapshot may make. *)
Definition snapshot_call {Frame} (c : call Frame) : bool :=
  match c with
  | Strftime _ | CaptureArray _ | Imwrite _ _ | Print _ => true
  | _ => false
  end.

(** The name under which [capture_image] saves slot [i] at [timestamp],
    and the frame it saves for brightness [b]. *)
Definition snapshot_path (s : controller) (i : Z) (timestamp : string) : string :=
  save_directory s +:+ "/camera" +:+ pretty (i + 1) +:+ "_" +:+ timestamp +:+ ".jpg".

Definition adjusted {Frame} (cv : ImageOps Frame) (b : Z) (raw : Frame) : Frame :=
  if b =? 0 then raw else convertScaleAbs cv raw 1 b.

(** Brightness values that are multiples of the brightness step. *)
Definition on_grid (s : controller) : Prop :=
  Forall (fun v => (5 | v)) (brightness_values s).

(** What [run] keeps of the controller [s0] it started with: the
    cameras, the resolution options and the save directory are the
    same, and the rest is well-formed. *)
Definition controller_ok (s0 s : controller) : Prop :=
  cameras s = cameras s0 /\
  resolution_options s = resolution_options s0 /\
  save_directory s = save_directory s0 /\
  valid_slot (active_camera s) /\
  shaped s /\
  in_bounds s /\
  0 <= current_resolution_idx s < len (resolution_options s).

(** The keys that step a parameter of the active camera. *)
Definition parameter_keys : list Z := map ord ["e"; "c"; "b"; "v"]%char.

(** The key that selects slot [i]: [1] for slot 0, [2] for slot 1. *)
Definition select_key (i : Z) : Z := if i =? 0 then ord "1" else ord "2".

(** The value that a parameter key leaves in the active slot: [up]
    steps by [step] towards [hi], [down] towards [lo], any other key
    leaves [v]. *)
Definition keyed_step (key up down : Z) (lo hi step v : Z) : Z :=
  if key =? up then Z.min hi (v + step)
  else if key =? down then Z.max lo (v - step)
  else v.



(** ** A bench: concrete frames, image operations and environments *)

Module Bench.

(** A frame as one row of channel values. *)
Definition frame : Type := list Z.

Definition ops : ImageOps frame := {|
  shape f := (1, len f);
  convertScaleAbs f alpha beta := map (fun p => Z.min 255 (Z.abs (p * alpha + beta))) f;
  rectangle f _ _ _ _ := f;
  addWeighted_half f _ := f;
  putText f _ _ _ _ := f;
  cvtColor_RGB2BGR f := reverse f;
  hstack fs := concat fs;
|}.

Definition clock (fmt : string) : string :=
  if String.eqb fmt "%Y%m%d_%H%M%S" then "20240102_030405" else "2024-01-02 03:04:05".

Definition picture (cam : camera) : frame :=
  match cam with Picam i => [i; 100; 200] end.

(** Devices that never fault. *)
Definition steady : Env frame := {|
  faults _ _ := false;
  captured _ cam := picture cam;
  path_exists _ _ := false;
  localtime _ fmt := clock fmt;
  message _ := "fault";
|}.

(** Camera 0 delivers no frames; everything else works. *)
Definition camera0_down : Env frame := {|
  faults _ c := match c with CaptureArray (Picam 0) => true | _ => false end;
  captured _ cam := picture cam;
  path_exists _ _ := true;
  localtime _ fmt := clock fmt;
  message _ := "fault";
|}.

(** Camera 1 delivers no frames; everything else works. *)
Definition camera1_down : Env frame := {|
  faults _ c := match c with CaptureArray (Picam 1) => true | _ => false end;
  captured _ cam := picture cam;
  path_exists _ _ := true;
  localtime _ fmt := clock fmt;
  message _ := "fault";
|}.

(** The controller as [__init__] leaves it when both cameras opened. *)
Definition ready : controller := set_cameras [Picam 0; Picam 1] init_fields.

Definition start : world frame := World ready [].

(** The same controller with slot 1 brightened by 20. *)
Definition brightened : world frame := World (set_brightness_values [0; 20] ready) [].

(** Ten exposure steps up and fifty brightness steps down on slot 0,
    then two steps on slot 1 in directions that are not "up". *)
Definition scenario : list adjustment :=
  repeat (AdjustExposure 0 (PyStr "up")) 10 ++
  repeat (AdjustBrightness 0 (PyStr "down")) 50 ++
  [AdjustExposure 1 (PyStr "UP"); AdjustBrightness 1 PyNone].

(** The image write fails; everything else works. *)
Definition disk_full : Env frame := {|
  faults _ c := match c with Imwrite _ _ => true | _ => false end;
  captured _ cam := picture cam;
  path_exists _ _ := true;
  localtime _ fmt := clock fmt;
  message _ := "fault";
|}.

(** The driver rejects every control; everything else works. *)
Definition controls_rejected : Env frame := {|
  faults _ c := match c with SetControls _ _ _ => true | _ => false end;
  captured _ cam := picture cam;
  path_exists _ _ := true;
  localtime _ fmt := clock fmt;
  message _ := "fault";
|}.

(** A session at the keyboard that ends with [q]. *)
Definition session : list Z :=
  [ord "2"; ord "e"; ord "r"; ord "b"; ord "p"; ord "d"; -1; ord "c"; ord "q"].

(** Every [configure] is refused; everything else works. *)
Definition configure_fails : Env frame := {|
  faults _ c := match c with Configure _ _ => true | _ => false end;
  captured _ cam := picture cam;
  path_exists _ _ := true;
  localtime _ fmt := clock fmt;
  message _ := "fault";
|}.


End Bench.


(** * Properties *)

Section Properties.

Context {Frame : Type} (cv : ImageOps Frame) (env : Env Frame).

Implicit Types (w : world Frame) (s : controller) (i : Z) (d : pyval).

(** Unfolds the monad and the primitive computations. *)
Ltac run_monad :=
  cbv [mbind M_bind mret M_ret get_self getitem setitem update invoke ask print
       strftime log raise py_index length self trace];
  simpl.

(** Names the two entries of the lists of a shaped controller. *)
Ltac two_slots w H :=
  destruct w as [[cams act prev ex br ro idx dir] tr];
  destruct H as (Hlc & Hle & Hlb); simpl in *;
  destruct cams as [|k0 [|k1 [|]]]; try discriminate Hlc;
  destruct ex as [|e0 [|e1 [|]]]; try discriminate Hle;
  destruct br as [|b0 [|b1 [|]]]; try discriminate Hlb;
  clear Hlc Hle Hlb.

Lemma going_up_neq d : d <> PyStr "up" -> going_up d = false.
Proof.
  intros Hd. unfold going_up. destruct d as [| n | t | a b]; try reflexivity.
  simpl. destruct (String.eqb_spec t "up") as [-> | ]; [congruence | reflexivity].
Qed.

Lemma slot_lookup {A} (l : list A) i :
  valid_slot i -> length l = 2%nat -> exists x, l !! Z.to_nat i = Some x.
Proof.
  intros [-> | ->] Hl; destruct l as [|x [|y [|]]]; try discriminate Hl;
    simpl; eauto.
Qed.

(** *** The two adjustments, on a valid slot *)

Lemma adjust_exposure_run i d w v cam :
  valid_slot i -> shaped (self w) ->
  exposure_values (self w) !! Z.to_nat i = Some v ->
  cameras (self w) !! Z.to_nat i = Some cam ->
  let v' := if going_up d then Z.min 8 (v + 1) else Z.max (-8) (v - 1) in
  let s' := set_exposure_values (<[Z.to_nat i:=v']> (exposure_values (self w))) (self w) in
  let c := SetControls cam "ExposureValue" v' in
  adjust_exposure env i d w =
    if faults env (trace w) c then (World s' (trace w ++ [c]), Raise (Fault c))
    else (World s' ((trace w ++ [c]) ++
            [Print ("Camera " +:+ pretty (i + 1) +:+ " exposure compensation: "
                    +:+ pretty v')]),
          Ok PyNone).
Proof.
  intros Hi Hs Hv Hcam v' s' c. two_slots w Hs.
  unfold adjust_exposure. fold (going_up d).
  destruct Hi as [-> | ->]; simpl in Hv, Hcam;
    injection Hv as <-; injection Hcam as <-;
    subst v' s' c; destruct (going_up d);
    cbv [exposure_values cameras set_exposure_values]; run_monad;
    destruct (faults env tr _); reflexivity.
Qed.

Lemma adjust_brightness_run i d w v :
  valid_slot i -> shaped (self w) ->
  brightness_values (self w) !! Z.to_nat i = Some v ->
  let v' := if going_up d then Z.min 100 (v + 5) else Z.max (-100) (v - 5) in
  let s' := set_brightness_values (<[Z.to_nat i:=v']> (brightness_values (self w)))
              (self w) in
  adjust_brightness i d w =
    (World s' (trace w ++
       [Print ("Camera " +:+ pretty (i + 1) +:+ " brightness: " +:+ pretty v')]),
     Ok PyNone).
Proof.
  intros Hi Hs Hv v' s'. two_slots w Hs.
  unfold adjust_brightness. fold (going_up d).
  destruct Hi as [-> | ->]; simpl in Hv; injection Hv as <-;
    subst v' s'; destruct (going_up d);
    cbv [brightness_values set_brightness_values]; run_monad; reflexivity.
Qed.

Lemma adjust_exposure_self i d w v :
  valid_slot i -> shaped (self w) ->
  exposure_values (self w) !! Z.to_nat i = Some v ->
  self (fst (adjust_exposure env i d w)) =
    set_exposure_values
      (<[Z.to_nat i:=if going_up d then Z.min 8 (v + 1) else Z.max (-8) (v - 1)]>
         (exposure_values (self w))) (self w).
Proof.
  intros Hi Hs Hv.
  destruct (slot_lookup (cameras (self w)) i Hi (proj1 Hs)) as [cam Hcam].
  rewrite (adjust_exposure_run i d w v cam Hi Hs Hv Hcam).
  destruct (faults env _ _); reflexivity.
Qed.

Lemma shaped_set_exposure s l :
  shaped s -> length l = length (exposure_values s) -> shaped (set_exposure_values l s).
Proof. intros (? & ? & ?) Hl. repeat split; simpl; congruence. Qed.

Lemma shaped_set_brightness s l :
  shaped s -> length l = length (brightness_values s) ->
  shaped (set_brightness_values l s).
Proof. intros (? & ? & ?) Hl. repeat split; simpl; congruence. Qed.

(** One adjustment on a valid slot keeps the shape and the bounds. *)
Lemma adjust_preserves a w :
  valid_slot (slot_of a) -> shaped (self w) -> in_bounds (self w) ->
  shaped (self (fst (adjust env a w))) /\ in_bounds (self (fst (adjust env a w))).
Proof.
  intros Hi Hs [He Hb]. destruct a as [i d | i d]; simpl in Hi |- *.
  - destruct (slot_lookup (exposure_values (self w)) i Hi (proj1 (proj2 Hs))) as [v Hv].
    rewrite (adjust_exposure_self i d w v Hi Hs Hv). split.
    + apply shaped_set_exposure; [assumption | apply length_insert].
    + split; simpl; [| assumption].
      apply Forall_insert; [assumption |].
      pose proof (proj1 (Forall_lookup _ _) He _ _ Hv) as Hv'. simpl in Hv'.
      destruct (going_up d); lia.
  - destruct (slot_lookup (brightness_values (self w)) i Hi (proj2 (proj2 Hs))) as [v Hv].
    rewrite (adjust_brightness_run i d w v Hi Hs Hv). simpl. split.
    + apply shaped_set_brightness; [assumption | apply length_insert].
    + split; simpl; [assumption |].
      apply Forall_insert; [assumption |].
      pose proof (proj1 (Forall_lookup _ _) Hb _ _ Hv) as Hv'. simpl in Hv'.
      destruct (going_up d); lia.
Qed.

Lemma adjust_all_preserves acts : forall w,
  Forall (fun a => valid_slot (slot_of a)) acts ->
  shaped (self w) -> in_bounds (self w) ->
  shaped (self (adjust_all env acts w)) /\ in_bounds (self (adjust_all env acts w)).
Proof.
  induction acts as [| a acts IH]; intros w Hv Hs Hb; simpl.
  - split; assumption.
  - inversion Hv as [| ? ? Ha Hacts]; subst.
    destruct (adjust_preserves a w Ha Hs Hb) as [Hs' Hb'].
    apply IH; assumption.
Qed.

(** A step at the bound it steps towards changes neither list and
    raises nothing of its own. *)
Lemma adjust_at_limit a w :
  valid_slot (slot_of a) -> shaped (self w) ->
  parameter_of a (self w) !! Z.to_nat (slot_of a) = Some (limit_of a) ->
  self (fst (adjust env a w)) = self w /\
  (faultless env -> snd (adjust env a w) = Ok PyNone).
Proof.
  intros Hi Hs Hv. destruct a as [i d | i d]; simpl in *.
  - destruct (slot_lookup (cameras (self w)) i Hi (proj1 Hs)) as [cam Hcam].
    rewrite (adjust_exposure_run i d w _ cam Hi Hs Hv Hcam).
    assert (Hsame : set_exposure_values
              (<[Z.to_nat i:=if going_up d
                             then Z.min 8 ((if going_up d then 8 else -8) + 1)
                             else Z.max (-8) ((if going_up d then 8 else -8) - 1)]>
                 (exposure_values (self w))) (self w) = self w).
    { replace (if going_up d
               then Z.min 8 ((if going_up d then 8 else -8) + 1)
               else Z.max (-8) ((if going_up d then 8 else -8) - 1))
        with (if going_up d then 8 else -8) by (destruct (going_up d); reflexivity).
      rewrite list_insert_id by assumption. destruct (self w); reflexivity. }
    split.
    + destruct (faults env _ _); simpl; exact Hsame.
    + intros Hq. rewrite Hq. reflexivity.
  - rewrite (adjust_brightness_run i d w _ Hi Hs Hv). simpl. split; [| reflexivity].
    replace (if going_up d
             then Z.min 100 ((if going_up d then 100 else -100) + 5)
             else Z.max (-100) ((if going_up d then 100 else -100) - 5))
      with (if going_up d then 100 else -100) by (destruct (going_up d); reflexivity).
    rewrite list_insert_id by assumption. destruct (self w); reflexivity.
Qed.

(** Within the bounds, the step of the code is the clamped step of
    the specification. *)
Lemma adjust_steps_as_specified a w v :
  valid_slot (slot_of a) -> shaped (self w) -> in_bounds (self w) ->
  parameter_of a (self w) !! Z.to_nat (slot_of a) = Some v ->
  parameter_of a (self (fst (adjust env a w))) =
    <[Z.to_nat (slot_of a):=spec_step a v]> (parameter_of a (self w)).
Proof.
  intros Hi Hs [He Hb] Hv. destruct a as [i d | i d]; simpl in *.
  - rewrite (adjust_exposure_self i d w v Hi Hs Hv). simpl. f_equal.
    pose proof (proj1 (Forall_lookup _ _) He _ _ Hv) as Hv'. simpl in Hv'.
    unfold clamp. destruct (going_up d); lia.
  - rewrite (adjust_brightness_run i d w v Hi Hs Hv). simpl. f_equal.
    pose proof (proj1 (Forall_lookup _ _) Hb _ _ Hv) as Hv'. simpl in Hv'.
    unfold clamp. destruct (going_up d); lia.
Qed.

(** C1. Along every sequence of [adjust_exposure] and
    [adjust_brightness] calls on slots 0 and 1, in any direction and
    whatever the driver answers, every exposure value stays in [-8, 8]
    and every brightness value in [-100, 100].  In the state so
    reached a further call moves its slot's value by one step of 1
    (exposure) or 5 (brightness), clamped to the range; taken from the
    bound it steps towards, it leaves the controller as it is and
    raises no error. *)
Theorem adjust_sequence_in_bounds acts w :
  shaped (self w) -> in_bounds (self w) ->
  Forall (fun a => valid_slot (slot_of a)) acts ->
  let w' := adjust_all env acts w in
  in_bounds (self w') /\
  forall a,
    valid_slot (slot_of a) ->
    (forall v,
       parameter_of a (self w') !! Z.to_nat (slot_of a) = Some v ->
       parameter_of a (self (fst (adjust env a w'))) =
         <[Z.to_nat (slot_of a):=spec_step a v]> (parameter_of a (self w'))) /\
    (parameter_of a (self w') !! Z.to_nat (slot_of a) = Some (limit_of a) ->
     self (fst (adjust env a w')) = self w' /\
     (faultless env -> snd (adjust env a w') = Ok PyNone)).
Proof.
  intros Hs Hb Hv w'.
  destruct (adjust_all_preserves acts w Hv Hs Hb) as [Hs' Hb'].
  split; [exact Hb' |].
  intros a Ha. split.
  - intros v Hlook. apply adjust_steps_as_specified; assumption.
  - intros Hlim. apply adjust_at_limit; assumption.
Qed.

(** C10. On slots 0 and 1, every [direction] other than the string
    "up" makes [adjust_exposure] and [adjust_brightness] step down:
    the slot's value becomes [max(-8, v - 1)], respectively
    [max(-100, v - 5)], and the call returns [None] (the exposure call
    raises only if the driver's [set_controls] does). *)
Theorem other_direction_steps_down i d w :
  valid_slot i -> shaped (self w) -> d <> PyStr "up" ->
  exists ve vb cam,
    exposure_values (self w) !! Z.to_nat i = Some ve /\
    brightness_values (self w) !! Z.to_nat i = Some vb /\
    cameras (self w) !! Z.to_nat i = Some cam /\
    exposure_values (self (fst (adjust_exposure env i d w))) =
      <[Z.to_nat i:=Z.max (-8) (ve - 1)]> (exposure_values (self w)) /\
    brightness_values (self (fst (adjust_brightness i d w))) =
      <[Z.to_nat i:=Z.max (-100) (vb - 5)]> (brightness_values (self w)) /\
    snd (adjust_brightness i d w) = Ok PyNone /\
    snd (adjust_exposure env i d w) =
      let c := SetControls cam "ExposureValue" (Z.max (-8) (ve - 1)) in
      if faults env (trace w) c then Raise (Fault c) else Ok PyNone.
Proof.
  intros Hi Hs Hd. pose proof (going_up_neq d Hd) as Hup.
  destruct (slot_lookup (exposure_values (self w)) i Hi (proj1 (proj2 Hs))) as [ve Hve].
  destruct (slot_lookup (brightness_values (self w)) i Hi (proj2 (proj2 Hs))) as [vb Hvb].
  destruct (slot_lookup (cameras (self w)) i Hi (proj1 Hs)) as [cam Hcam].
  exists ve, vb, cam. repeat (split; [assumption |]).
  rewrite (adjust_exposure_run i d w ve cam Hi Hs Hve Hcam).
  rewrite (adjust_brightness_run i d w vb Hi Hs Hvb).
  rewrite Hup. simpl.
  destruct (faults env _ _); repeat split; reflexivity.
Qed.

(** *** Snapshots *)

Lemma slot_label i : valid_slot i -> pretty (i + 1) = if i =? 0 then "1" else "2".
Proof. intros [-> | ->]; reflexivity. Qed.

(** C4. On slot 0 or 1, when the capture and the write do not fault,
    [capture_image] reads the clock once, at the call, in the format
    [%Y%m%d_%H%M%S]; it writes the captured frame, passed through
    [convertScaleAbs(alpha=1, beta=brightness)] when the slot's
    brightness is not 0 and untouched when it is 0, with no overlay
    drawn on it, to [<save_directory>/camera<index+1>_<timestamp>.jpg]
    (label 2 for slot index 1), and returns that path. *)
Theorem capture_image_writes_adjusted_frame i w cam b :
  valid_slot i -> shaped (self w) ->
  cameras (self w) !! Z.to_nat i = Some cam ->
  brightness_values (self w) !! Z.to_nat i = Some b ->
  let fmt := "%Y%m%d_%H%M%S" in
  let timestamp := localtime env (trace w) fmt in
  let filename := save_directory (self w) +:+ "/camera" +:+ pretty (i + 1)
                  +:+ "_" +:+ timestamp +:+ ".jpg" in
  let raw := captured env (trace w ++ [Strftime fmt]) cam in
  let img := if b =? 0 then raw else convertScaleAbs cv raw 1 b in
  faults env (trace w ++ [Strftime fmt]) (CaptureArray cam) = false ->
  faults env (trace w ++ [Strftime fmt; CaptureArray cam]) (Imwrite filename img) = false ->
  capture_image cv env i w =
    (World (self w)
       (trace w ++ [Strftime fmt; CaptureArray cam; Imwrite filename img;
                    Print ("Image saved as " +:+ filename)]),
     Ok (PyStr filename)) /\
  pretty (i + 1) = (if i =? 0 then "1" else "2").
Proof.
  intros Hi Hs Hcam Hb fmt timestamp filename raw img Hcap Hwrite.
  split; [| apply slot_label; assumption].
  replace (trace w ++ [Strftime fmt; CaptureArray cam]) with
    ((trace w ++ [Strftime fmt]) ++ [CaptureArray cam]) in Hwrite
    by (rewrite <- app_assoc; reflexivity).
  replace (trace w ++ [Strftime fmt; CaptureArray cam; Imwrite filename img;
                       Print ("Image saved as " +:+ filename)]) with
    ((((trace w ++ [Strftime fmt]) ++ [CaptureArray cam]) ++ [Imwrite filename img])
       ++ [Print ("Image saved as " +:+ filename)])
    by (rewrite <- !app_assoc; reflexivity).
  two_slots w Hs.
  unfold capture_image.
  destruct Hi as [-> | ->]; simpl in Hcam, Hb;
    injection Hcam as <-; injection Hb as <-;
    cbv [cameras brightness_values save_directory]; run_monad;
    fold fmt; fold timestamp; rewrite Hcap; fold raw;
    subst filename img; destruct (_ =? 0); simpl in *; rewrite Hwrite; reflexivity.
Qed.

(** *** Changing the resolution *)

Lemma bind_run {A B} (m : M Frame A) (f : A -> M Frame B) w :
  (m ≫= f) w =
    match m w with
    | (w', Ok a) => f a w'
    | (w', Raise e) => (w', Raise e)
    end.
Proof. reflexivity. Qed.

Lemma for_each_self {A} (body : A -> M Frame unit) (l : list A) :
  (forall x w, self (fst (body x w)) = self w) ->
  forall w, self (fst (for_each l body w)) = self w.
Proof.
  intros Hbody. induction l as [| x l IH]; intros w; simpl; [reflexivity |].
  rewrite bind_run. specialize (Hbody x w).
  destruct (body x w) as [w' [[] | e]]; simpl in *; [| assumption].
  rewrite IH. assumption.
Qed.

Lemma reconfigure_self size cam w :
  self (fst (reconfigure env size cam w)) = self w.
Proof.
  unfold reconfigure, create_preview_configuration. run_monad.
  repeat (destruct (faults env _ _); simpl; try reflexivity).
Qed.

Lemma getitem_in_range {A} (l : list A) i w :
  0 <= i < len l ->
  exists x, l !! Z.to_nat i = Some x /\ getitem l i w = (w, Ok x).
Proof.
  unfold len. intros Hi.
  destruct (lookup_lt_is_Some_2 l (Z.to_nat i)) as [x Hx]; [lia |].
  exists x. split; [assumption |].
  unfold getitem, py_index.
  replace ((0 <=? i) && (i <? Z.of_nat (length l))) with true
    by (symmetry; apply andb_true_intro; split; [apply Z.leb_le | apply Z.ltb_lt]; lia).
  rewrite Hx. reflexivity.
Qed.

Lemma next_idx_range s :
  0 < len (resolution_options s) -> 0 <= next_idx s < len (resolution_options s).
Proof. intros Hn. unfold next_idx. apply Z.mod_pos_bound. assumption. Qed.

(** [change_resolution] once it has stored the next index. *)
Lemma change_resolution_run w :
  0 < len (resolution_options (self w)) ->
  let s' := set_current_resolution_idx (next_idx (self w)) (self w) in
  exists size,
    resolution_options (self w) !! Z.to_nat (next_idx (self w)) = Some size /\
    change_resolution env w =
      match for_each (enumerate (cameras (self w)))
              (fun '(i, cam) => reconfigure env size cam) (World s' (trace w)) with
      | (w', Ok _) =>
          (World (self w')
             (trace w' ++ [Print ("Resolution changed to " +:+ pretty (fst size)
                                  +:+ "x" +:+ pretty (snd size))]),
           Ok PyNone)
      | (w', Raise e) => (w', Raise e)
      end.
Proof.
  intros Hn s'.
  destruct (getitem_in_range (resolution_options (self w)) (next_idx (self w))
              (World s' (trace w)) (next_idx_range _ Hn)) as (size & Hsize & Hget).
  exists size. split; [assumption |].
  unfold change_resolution.
  rewrite bind_run. cbv [get_self]. rewrite bind_run.
  destruct (Z.eqb_spec (len (resolution_options (self w))) 0) as [Hz | _]; [lia |].
  cbv [update]. rewrite bind_run. cbv [get_self]. fold (next_idx (self w)). fold s'.
  rewrite bind_run. cbn [self trace].
  change (resolution_options s') with (resolution_options (self w)).
  change (current_resolution_idx s') with (next_idx (self w)).
  rewrite Hget, bind_run.
  change (cameras s') with (cameras (self w)).
  destruct (for_each _ _ _) as [w' [[] | e]]; reflexivity.
Qed.

Lemma change_resolution_self w :
  0 < len (resolution_options (self w)) ->
  self (fst (change_resolution env w)) =
    set_current_resolution_idx (next_idx (self w)) (self w).
Proof.
  intros Hn. destruct (change_resolution_run w Hn) as (size & _ & ->).
  pose proof (for_each_self (fun '(i, cam) => reconfigure env size cam)
                (enumerate (cameras (self w)))) as Hloop.
  specialize (Hloop (fun x w0 => let '(i, cam) := x in reconfigure_self size cam w0)
                (World (set_current_resolution_idx (next_idx (self w)) (self w)) (trace w))).
  destruct (for_each _ _ _) as [w' [[] | e]]; simpl in *; assumption.
Qed.

(** What the loop over two cameras calls: the two renegotiations in
    list order, cut short at the first call that faults. *)
Lemma reconfigure_both_calls size c0 c1 s tr :
  cameras s = [c0; c1] ->
  let loop := for_each (enumerate (cameras s))
                (fun '(i, cam) => reconfigure env size cam) (World s tr) in
  exists done,
    trace (fst loop) = tr ++ done /\
    done `prefix_of` (renegotiation size c0 ++ renegotiation size c1) /\
    (forall u, snd loop = Ok u -> done = renegotiation size c0 ++ renegotiation size c1) /\
    (faultless env -> snd loop = Ok tt).
Proof.
  intros -> loop. subst loop.
  unfold enumerate, reconfigure, create_preview_configuration, renegotiation.
  simpl imap. cbn [for_each]. run_monad.
  repeat (match goal with
          | |- context [faults env ?h ?c] => destruct (faults env h c) eqn:?; simpl
          end);
    (eexists; split; [rewrite <- ?app_assoc; simpl; reflexivity |]);
    (split; [eexists; simpl; reflexivity |]);
    (split; [intros u Hu; first [discriminate Hu | reflexivity] |]);
    intros Hq; try reflexivity; exfalso;
    match goal with
    | H : faults env _ _ = true |- _ => rewrite Hq in H; discriminate H
    end.
Qed.

Lemma change_resolution_faultless w c0 c1 :
  cameras (self w) = [c0; c1] ->
  0 < len (resolution_options (self w)) ->
  exists size,
    resolution_options (self w) !! Z.to_nat (next_idx (self w)) = Some size /\
    (faultless env ->
     change_resolution env w =
       (World (set_current_resolution_idx (next_idx (self w)) (self w))
          (trace w ++ renegotiation size c0 ++ renegotiation size c1 ++
             [Print ("Resolution changed to " +:+ pretty (fst size) +:+ "x"
                     +:+ pretty (snd size))]),
        Ok PyNone)).
Proof.
  intros Hcams Hn. destruct (change_resolution_run w Hn) as (size & Hsize & Hrun).
  exists size. split; [assumption |]. intros Hq. rewrite Hrun.
  destruct (reconfigure_both_calls size c0 c1
              (set_current_resolution_idx (next_idx (self w)) (self w)) (trace w) Hcams)
    as (done & Htr & _ & Hall & Hok).
  specialize (Hok Hq). simpl in Hok, Htr, Hall |- *.
  pose proof (for_each_self (fun '(i, cam) => reconfigure env size cam)
                (enumerate (cameras (self w)))
                (fun x w0 => let '(i, cam) := x in reconfigure_self size cam w0)
                (World (set_current_resolution_idx (next_idx (self w)) (self w)) (trace w)))
    as Hself.
  destruct (for_each _ _ _) as [w' [[] | e]]; simpl in *; [| discriminate Hok].
  rewrite Hself, Htr, (Hall tt eq_refl), <- !app_assoc. reflexivity.
Qed.

(** C5, as the code has it. With at least one resolution option,
    [change_resolution] moves the shared index to [(index + 1) % len],
    which is a valid index, whatever the cameras answer; it never
    returns a pair; and when nothing faults it returns [None] after
    reconfiguring both cameras with the option at the new index and
    printing that option. *)
Theorem change_resolution_advances_index w c0 c1 :
  cameras (self w) = [c0; c1] ->
  0 < len (resolution_options (self w)) ->
  let n := len (resolution_options (self w)) in
  let idx' := (current_resolution_idx (self w) + 1) `mod` n in
  self (fst (change_resolution env w)) = set_current_resolution_idx idx' (self w) /\
  0 <= idx' < n /\
  (forall a b, snd (change_resolution env w) <> Ok (PyTuple2 a b)) /\
  exists size,
    resolution_options (self w) !! Z.to_nat idx' = Some size /\
    (faultless env ->
     change_resolution env w =
       (World (set_current_resolution_idx idx' (self w))
          (trace w ++ renegotiation size c0 ++ renegotiation size c1 ++
             [Print ("Resolution changed to " +:+ pretty (fst size) +:+ "x"
                     +:+ pretty (snd size))]),
        Ok PyNone)).
Proof.
  intros Hcams Hn n idx'. split; [apply change_resolution_self; assumption |].
  split; [apply next_idx_range; assumption |]. split.
  - intros a b. destruct (change_resolution_run w Hn) as (size & _ & ->).
    destruct (for_each _ _ _) as [w' [[] | e]]; simpl; discriminate.
  - apply change_resolution_faultless; assumption.
Qed.

Lemma change_resolution_times_self n : forall w,
  0 <= current_resolution_idx (self w) < len (resolution_options (self w)) ->
  self (change_resolution_times env n w) =
    set_current_resolution_idx
      ((current_resolution_idx (self w) + Z.of_nat n) `mod` len (resolution_options (self w)))
      (self w).
Proof.
  induction n as [| n IH]; intros w Hidx.
  - simpl. rewrite Z.add_0_r, Z.mod_small by assumption. destruct (self w); reflexivity.
  - cbn [change_resolution_times].
    assert (Hn : 0 < len (resolution_options (self w))) by lia.
    pose proof (change_resolution_self w Hn) as Hstep.
    pose proof (next_idx_range (self w) Hn) as Hnext.
    rewrite IH by (rewrite Hstep; exact Hnext).
    rewrite Hstep. simpl. unfold next_idx.
    rewrite Z.add_mod_idemp_l by lia.
    unfold set_current_resolution_idx. simpl. do 2 f_equal. lia.
Qed.

(** C6. From every valid resolution index, as many calls of
    [change_resolution] as there are resolution options bring the index
    back to where it was, and with it the selected (width, height)
    pair; the rest of the controller is as before too. *)
Theorem resolution_cycle_restores w :
  0 <= current_resolution_idx (self w) < len (resolution_options (self w)) ->
  let w' := change_resolution_times env (length (resolution_options (self w))) w in
  current_resolution_idx (self w') = current_resolution_idx (self w) /\
  resolution_options (self w') !! Z.to_nat (current_resolution_idx (self w')) =
    resolution_options (self w) !! Z.to_nat (current_resolution_idx (self w)) /\
  self w' = self w.
Proof.
  intros Hidx w'.
  assert (Hself : self w' = self w).
  { subst w'. rewrite change_resolution_times_self by assumption.
    fold (len (resolution_options (self w))).
    rewrite <- (Z.mul_1_l (len (resolution_options (self w)))) at 1.
    rewrite Z.mod_add by lia. rewrite Z.mod_small by assumption.
    destruct (self w); reflexivity. }
  rewrite Hself. repeat split.
Qed.

Lemma prefix_past {A} (P : A -> Prop) (done first rest : list A) :
  done `prefix_of` first ++ rest ->
  (forall x, x ∈ first -> ~ P x) ->
  forall c, c ∈ done -> P c -> first `prefix_of` done.
Proof.
  intros Hdone Hfirst c Hc HP.
  destruct (prefix_weak_total first done (first ++ rest)) as [Hp | Hp];
    [apply prefix_app_r; reflexivity | assumption | assumption |].
  destruct Hp as [k ->]. exfalso. apply (Hfirst c); [| assumption].
  apply elem_of_app. left. assumption.
Qed.

(** C7. With cameras [c0; c1], the calls that [change_resolution]
    makes are a prefix of: stop, configuration, configure, start on
    [c0]; the same four on [c1]; the printed line.  The prefix is the
    whole list when nothing faults, and ends at the first call that
    faults otherwise.  So whenever a call on [c1] is made, the four
    calls on [c0] have all been made before it. *)
Theorem change_resolution_slot_by_slot w c0 c1 :
  cameras (self w) = [c0; c1] ->
  0 < len (resolution_options (self w)) ->
  exists size done,
    resolution_options (self w) !! Z.to_nat (next_idx (self w)) = Some size /\
    let planned :=
      renegotiation size c0 ++ renegotiation size c1 ++
      [Print ("Resolution changed to " +:+ pretty (fst size) +:+ "x"
              +:+ pretty (snd size))] in
    trace (fst (change_resolution env w)) = trace w ++ done /\
    done `prefix_of` planned /\
    (faultless env -> done = planned) /\
    (c0 <> c1 ->
     forall c, c ∈ done -> device_of c = Some c1 ->
     renegotiation size c0 `prefix_of` done).
Proof.
  intros Hcams Hn.
  destruct (change_resolution_faultless w c0 c1 Hcams Hn) as (size & Hsize & Hfull).
  assert (Hcalls : exists done,
            trace (fst (change_resolution env w)) = trace w ++ done /\
            done `prefix_of`
              (renegotiation size c0 ++ renegotiation size c1 ++
               [Print ("Resolution changed to " +:+ pretty (fst size) +:+ "x"
                       +:+ pretty (snd size))])).
  { destruct (change_resolution_run w Hn) as (size' & Hsize' & ->).
    assert (size' = size) as -> by congruence.
    destruct (reconfigure_both_calls size c0 c1
                (set_current_resolution_idx (next_idx (self w)) (self w)) (trace w) Hcams)
      as (done & Htr & Hpre & Hall & _).
    cbv zeta in Htr, Hall.
    destruct (for_each _ _ _) as [w' [[] | e]]; cbn [fst snd trace self] in *.
    - exists (done ++ [Print ("Resolution changed to " +:+ pretty (fst size) +:+ "x"
                              +:+ pretty (snd size))]).
      split; [rewrite Htr, <- app_assoc; reflexivity |].
      rewrite (Hall tt eq_refl), <- app_assoc. reflexivity.
    - exists done. split; [assumption |].
      rewrite app_assoc. apply prefix_app_r. assumption. }
  destruct Hcalls as (done & Htr & Hpre).
  exists size, done. split; [assumption |]. cbv zeta.
  split; [assumption |]. split; [assumption |]. split.
  - intros Hq. rewrite (Hfull Hq) in Htr. cbn [fst trace] in Htr.
    apply app_inv_head in Htr. symmetry. exact Htr.
  - intros Hne. apply (prefix_past (fun c => device_of c = Some c1) done _ _ Hpre).
    intros x Hx Hdev. unfold renegotiation in Hx.
    repeat (apply elem_of_cons in Hx as [-> | Hx]; [simpl in Hdev; congruence |]).
    apply elem_of_nil in Hx. assumption.
Qed.

(** *** The keys *)

(** C8. The key [p] always succeeds and replaces [preview_active] by
    its negation, leaving the active camera, both exposure values,
    both brightness values and the resolution index as they were;
    pressed twice, it gives back the controller it started from. *)
Theorem toggle_preview_twice w :
  let toggle := handle_key cv env (ord "p") in
  let w1 := fst (toggle w) in
  let w2 := fst (toggle w1) in
  snd (toggle w) = Ok Next /\
  preview_active (self w1) = negb (preview_active (self w)) /\
  active_camera (self w1) = active_camera (self w) /\
  exposure_values (self w1) = exposure_values (self w) /\
  brightness_values (self w1) = brightness_values (self w) /\
  current_resolution_idx (self w1) = current_resolution_idx (self w) /\
  preview_active (self w2) = preview_active (self w) /\
  self w2 = self w.
Proof.
  destruct w as [[cams act prev ex br ro idx dir] tr].
  unfold handle_key. simpl. run_monad.
  destruct prev; simpl; repeat split; reflexivity.
Qed.

Lemma not_command_key key c : key ∉ command_keys -> c ∈ command_keys -> (key =? c) = false.
Proof.
  intros Hkey Hc. destruct (Z.eqb_spec key c) as [-> | _]; [contradiction | reflexivity].
Qed.

Lemma handle_other_key key w :
  key ∉ command_keys -> handle_key cv env key w = (w, Ok Next).
Proof.
  intros Hkey. unfold handle_key.
  rewrite !(not_command_key key _ Hkey) by (unfold command_keys; simpl; repeat constructor).
  reflexivity.
Qed.

Lemma for_fold_self {A S} (body : S -> A -> M Frame S) (l : list A) :
  (forall acc x w, self (fst (body acc x w)) = self w) ->
  forall acc w, self (fst (for_fold l body acc w)) = self w.
Proof.
  intros Hbody. induction l as [| x l IH]; intros acc w; simpl; [reflexivity |].
  rewrite bind_run. specialize (Hbody acc x w).
  destruct (body acc x w) as [w' [acc' | e]]; simpl in *; [| assumption].
  rewrite IH. assumption.
Qed.

Lemma getitem_same_world {A} (l : list A) i w : fst (getitem l i w) = w.
Proof.
  unfold getitem. destruct (py_index _ _); [| reflexivity].
  destruct (l !! _); reflexivity.
Qed.

Lemma add_info_overlay_self frame i w :
  self (fst (add_info_overlay cv env frame i w)) = self w.
Proof.
  unfold add_info_overlay. destruct (shape cv frame) as [height width].
  rewrite bind_run. cbv [strftime]. rewrite bind_run. cbv [get_self].
  rewrite bind_run.
  pose proof (getitem_same_world (exposure_values (self w)) i
                (World (self w) (trace w ++ [Strftime "%Y-%m-%d %H:%M:%S"]))) as He.
  cbn [self] in *.
  destruct (getitem (exposure_values _) _ _) as [w1 [ev | e]];
    simpl in He; subst w1; [| reflexivity].
  rewrite bind_run.
  pose proof (getitem_same_world (brightness_values (self w)) i
                (World (self w) (trace w ++ [Strftime "%Y-%m-%d %H:%M:%S"]))) as Hb.
  destruct (getitem (brightness_values _) _ _) as [w1 [b | e]];
    simpl in Hb; subst w1; reflexivity.
Qed.

Lemma grab_frame_self i cam w : self (fst (grab_frame cv env i cam w)) = self w.
Proof.
  unfold grab_frame. rewrite bind_run. cbv [ask].
  destruct (faults env _ _); [reflexivity |].
  rewrite bind_run. cbv [get_self]. rewrite bind_run. cbn [self].
  set (w0 := World (self w) (trace w ++ [CaptureArray cam])).
  pose proof (getitem_same_world (brightness_values (self w)) i w0) as Hb.
  destruct (getitem _ _ _) as [w1 [b | e]] eqn:Hget; simpl in Hb; subst w1;
    [| reflexivity].
  rewrite bind_run.
  destruct (negb (b =? 0)).
  - rewrite bind_run, Hget. cbv [mret M_ret].
    rewrite add_info_overlay_self. reflexivity.
  - cbv [mret M_ret]. rewrite add_info_overlay_self. reflexivity.
Qed.

Lemma capture_frames_self w : self (fst (capture_frames cv env w)) = self w.
Proof.
  unfold capture_frames. rewrite bind_run. cbv [get_self].
  apply for_fold_self. intros acc [i cam] w0. rewrite bind_run.
  pose proof (grab_frame_self i cam w0) as Hg.
  destruct (grab_frame _ _ _ _ _) as [w1 [f | e]]; simpl in *; assumption.
Qed.

Lemma show_preview_self frames w : self (fst (show_preview cv env frames w)) = self w.
Proof.
  unfold show_preview. rewrite bind_run. cbv [get_self].
  destruct (preview_active _); cbv [invoke ask mret M_ret]; reflexivity.
Qed.

(** C9. A key that is none of [q 1 2 s d r e c b v p] makes
    [handle_key] return at once: no call, no error, the controller
    and the trace as they were.  An iteration whose [waitKey] answer,
    masked with [0xFF], is such a key leaves the controller as it
    was. *)
Theorem unrecognized_key_ignored key w :
  key ∉ command_keys ->
  handle_key cv env key w = (w, Ok Next) /\
  forall pressed,
    Z.land pressed 255 = key ->
    self (fst (iteration cv env pressed w)) = self w.
Proof.
  intros Hkey. split; [apply handle_other_key; assumption |].
  intros pressed Hmask. unfold iteration. rewrite bind_run.
  pose proof (capture_frames_self w) as Hcap.
  destruct (capture_frames _ _ _) as [w1 [frames | e]]; simpl in Hcap; [| assumption].
  rewrite bind_run.
  pose proof (show_preview_self frames w1) as Hshow.
  destruct (show_preview _ _ _ _) as [w2 [[] | e]]; simpl in Hshow;
    rewrite Hcap in Hshow; [| assumption].
  rewrite bind_run. cbv [ask].
  destruct (faults env _ _); [assumption |].
  cbv zeta. rewrite Hmask, handle_other_key by assumption. assumption.
Qed.

(** *** Failures inside the loop *)

Lemma main_loop_raise pressed keys w w' e :
  iteration cv env pressed w = (w', Raise e) ->
  main_loop cv env (pressed :: keys) w = (w', Raise e).
Proof. intros H. cbn [main_loop]. rewrite bind_run, H. reflexivity. Qed.

Lemma run_raise keys w w' e :
  main_loop cv env keys (fst (for_each banner print w)) = (w', Raise e) ->
  run cv env keys w = (w', Raise e).
Proof.
  intros H. unfold run. rewrite bind_run.
  assert (Hb : for_each banner print w = (fst (for_each banner print w), Ok tt))
    by reflexivity.
  rewrite Hb, bind_run, H. reflexivity.
Qed.

Lemma getitem_slot {A} (l : list A) i w :
  valid_slot i -> length l = 2%nat ->
  exists x, l !! Z.to_nat i = Some x /\ getitem l i w = (w, Ok x).
Proof.
  intros Hi Hl. apply getitem_in_range. unfold len. destruct Hi as [-> | ->]; lia.
Qed.

Lemma grab_frame_fault i cam w :
  faults env (trace w) (CaptureArray cam) = true ->
  grab_frame cv env i cam w =
    (World (self w) (trace w ++ [CaptureArray cam]), Raise (Fault (CaptureArray cam))).
Proof.
  intros H. unfold grab_frame. rewrite bind_run. cbv [ask]. rewrite H. reflexivity.
Qed.

Lemma add_info_overlay_ok frame i w :
  valid_slot i -> shaped (self w) ->
  exists frame',
    add_info_overlay cv env frame i w =
      (World (self w) (trace w ++ [Strftime "%Y-%m-%d %H:%M:%S"]), Ok frame').
Proof.
  intros Hi (_ & He & Hb). unfold add_info_overlay.
  destruct (shape cv frame) as [height width].
  rewrite bind_run. cbv [strftime]. rewrite bind_run. cbv [get_self]. cbn [self].
  set (w0 := World (self w) (trace w ++ [Strftime "%Y-%m-%d %H:%M:%S"])).
  destruct (getitem_slot (exposure_values (self w)) i w0 Hi He) as (ev & _ & Hev).
  destruct (getitem_slot (brightness_values (self w)) i w0 Hi Hb) as (b & _ & Hbv).
  rewrite bind_run, Hev, bind_run, Hbv. eexists. reflexivity.
Qed.

Lemma grab_frame_ok i cam w :
  valid_slot i -> shaped (self w) ->
  faults env (trace w) (CaptureArray cam) = false ->
  exists frame,
    grab_frame cv env i cam w =
      (World (self w) (trace w ++ [CaptureArray cam; Strftime "%Y-%m-%d %H:%M:%S"]),
       Ok frame).
Proof.
  intros Hi Hs H. unfold grab_frame. rewrite bind_run. cbv [ask]. rewrite H.
  rewrite bind_run. cbv [get_self]. cbn [self].
  set (w0 := World (self w) (trace w ++ [CaptureArray cam])).
  destruct (getitem_slot (brightness_values (self w)) i w0 Hi (proj2 (proj2 Hs)))
    as (b & _ & Hb).
  rewrite bind_run, Hb, bind_run.
  assert (Hs0 : shaped (self w0)) by exact Hs.
  destruct (negb (b =? 0)).
  - rewrite bind_run, Hb. cbv [mret M_ret].
    destruct (add_info_overlay_ok (convertScaleAbs cv (captured env (trace w) cam) 1 b)
                i w0 Hi Hs0) as (f & ->).
    exists f. subst w0. cbn [self trace]. rewrite <- app_assoc. reflexivity.
  - cbv [mret M_ret].
    destruct (add_info_overlay_ok (captured env (trace w) cam) i w0 Hi Hs0) as (f & ->).
    exists f. subst w0. cbn [self trace]. rewrite <- app_assoc. reflexivity.
Qed.

Lemma capture_frames_two w c0 c1 :
  cameras (self w) = [c0; c1] ->
  capture_frames cv env w =
    match grab_frame cv env 0 c0 w with
    | (w1, Ok f0) =>
        match grab_frame cv env 1 c1 w1 with
        | (w2, Ok f1) => (w2, Ok [f0; f1])
        | (w2, Raise e) => (w2, Raise e)
        end
    | (w1, Raise e) => (w1, Raise e)
    end.
Proof.
  intros Hcams. unfold capture_frames. rewrite bind_run. cbv [get_self].
  rewrite Hcams. unfold enumerate. simpl imap. cbn [for_fold].
  change (Z.of_nat 0) with 0. change (Z.of_nat 1) with 1.
  rewrite !bind_run.
  destruct (grab_frame cv env 0 c0 w) as [w1 [f0 | e]]; [| reflexivity].
  cbv [mret M_ret]. rewrite !bind_run.
  destruct (grab_frame cv env 1 c1 w1) as [w2 [f1 | e]]; reflexivity.
Qed.

Lemma iteration_capture0_fault w c0 c1 pressed :
  cameras (self w) = [c0; c1] ->
  faults env (trace w) (CaptureArray c0) = true ->
  iteration cv env pressed w =
    (World (self w) (trace w ++ [CaptureArray c0]), Raise (Fault (CaptureArray c0))).
Proof.
  intros Hcams H0. unfold iteration.
  rewrite bind_run, (capture_frames_two w c0 c1 Hcams), (grab_frame_fault 0 c0 w H0).
  reflexivity.
Qed.

Lemma iteration_capture1_fault w c0 c1 pressed :
  shaped (self w) -> cameras (self w) = [c0; c1] ->
  let fmt := "%Y-%m-%d %H:%M:%S" in
  faults env (trace w) (CaptureArray c0) = false ->
  faults env (trace w ++ [CaptureArray c0; Strftime fmt]) (CaptureArray c1) = true ->
  iteration cv env pressed w =
    (World (self w) (trace w ++ [CaptureArray c0; Strftime fmt; CaptureArray c1]),
     Raise (Fault (CaptureArray c1))).
Proof.
  intros Hs Hcams fmt H0 H1. subst fmt. unfold iteration.
  rewrite bind_run, (capture_frames_two w c0 c1 Hcams).
  destruct (grab_frame_ok 0 c0 w (or_introl eq_refl) Hs H0) as (f0 & ->).
  rewrite (grab_frame_fault 1 c1
             (World (self w) (trace w ++ [CaptureArray c0; Strftime "%Y-%m-%d %H:%M:%S"]))
             H1).
  cbn [self trace]. rewrite <- app_assoc. reflexivity.
Qed.

(** C2, as the code has it. A capture that faults inside an iteration
    is not caught: the iteration stops at the failing [capture_array]
    (for slot 0 before slot 1 is captured; for slot 1 after slot 0's
    frame was taken), nothing is shown, no key is polled, nothing is
    printed, the controller is unchanged, and the loop ends there with
    that exception: no later iteration runs, and [run] raises it
    without reaching its clean-up. *)
Theorem capture_fault_ends_loop w c0 c1 pressed keys :
  shaped (self w) -> cameras (self w) = [c0; c1] ->
  let fmt := "%Y-%m-%d %H:%M:%S" in
  (faults env (trace w) (CaptureArray c0) = true ->
   main_loop cv env (pressed :: keys) w =
     (World (self w) (trace w ++ [CaptureArray c0]), Raise (Fault (CaptureArray c0)))) /\
  (faults env (trace w) (CaptureArray c0) = false ->
   faults env (trace w ++ [CaptureArray c0; Strftime fmt]) (CaptureArray c1) = true ->
   main_loop cv env (pressed :: keys) w =
     (World (self w) (trace w ++ [CaptureArray c0; Strftime fmt; CaptureArray c1]),
      Raise (Fault (CaptureArray c1)))) /\
  (forall w' e,
     main_loop cv env (pressed :: keys) (fst (for_each banner print w)) = (w', Raise e) ->
     run cv env (pressed :: keys) w = (w', Raise e)).
Proof.
  intros Hs Hcams fmt. split; [| split].
  - intros H0. apply main_loop_raise, (iteration_capture0_fault w c0 c1); assumption.
  - intros H0 H1. apply main_loop_raise, (iteration_capture1_fault w c0 c1); assumption.
  - intros w' e. apply run_raise.
Qed.

Lemma capture_image_fault i w cam :
  valid_slot i -> shaped (self w) ->
  cameras (self w) !! Z.to_nat i = Some cam ->
  let fmt := "%Y%m%d_%H%M%S" in
  faults env (trace w ++ [Strftime fmt]) (CaptureArray cam) = true ->
  capture_image cv env i w =
    (World (self w) (trace w ++ [Strftime fmt; CaptureArray cam]),
     Raise (Fault (CaptureArray cam))).
Proof.
  intros Hi Hs Hcam fmt H. subst fmt. unfold capture_image.
  rewrite bind_run. cbv [strftime]. rewrite bind_run. cbv [get_self]. cbn [self].
  set (w0 := World (self w) (trace w ++ [Strftime "%Y%m%d_%H%M%S"])).
  destruct (getitem_slot (cameras (self w)) i w0 Hi (proj1 Hs)) as (cam' & Hcam' & Hget).
  assert (cam' = cam) as -> by congruence.
  rewrite bind_run, Hget, bind_run. cbv [ask]. subst w0. cbn [self trace].
  rewrite H, <- app_assoc. reflexivity.
Qed.

Lemma save_all_run w :
  handle_key cv env (ord "d") w =
    match capture_image cv env 0 w with
    | (w1, Ok _) =>
        match capture_image cv env 1 w1 with
        | (w2, Ok _) => (w2, Ok Next)
        | (w2, Raise e) => (w2, Raise e)
        end
    | (w1, Raise e) => (w1, Raise e)
    end.
Proof.
  change (handle_key cv env (ord "d"))
    with (for_each range2 (fun i => capture_image cv env i;; mret tt);; mret Next).
  cbn [range2 for_each]. rewrite !bind_run.
  destruct (capture_image cv env 0 w) as [w1 [p0 | e]]; [| reflexivity].
  cbv [mret M_ret]. rewrite !bind_run.
  destruct (capture_image cv env 1 w1) as [w2 [p1 | e]]; reflexivity.
Qed.

(** C3, as the code has it. The key [d] calls [capture_image] for slot
    0 and then for slot 1; slot 1's save is attempted exactly when
    slot 0's save raised nothing, and an exception of either save is
    the outcome of the dispatch.  So when slot 0's capture faults,
    nothing is called after it: no capture on slot 1, no file for
    either slot, and no line is printed about the failure. *)
Theorem save_all_stops_at_first_failure w c0 c1 :
  shaped (self w) -> cameras (self w) = [c0; c1] ->
  let fmt := "%Y%m%d_%H%M%S" in
  handle_key cv env (ord "d") w =
    match capture_image cv env 0 w with
    | (w1, Ok _) =>
        match capture_image cv env 1 w1 with
        | (w2, Ok _) => (w2, Ok Next)
        | (w2, Raise e) => (w2, Raise e)
        end
    | (w1, Raise e) => (w1, Raise e)
    end /\
  (faults env (trace w ++ [Strftime fmt]) (CaptureArray c0) = true ->
   handle_key cv env (ord "d") w =
     (World (self w) (trace w ++ [Strftime fmt; CaptureArray c0]),
      Raise (Fault (CaptureArray c0)))).
Proof.
  intros Hs Hcams fmt. split; [apply save_all_run |].
  intros H. rewrite save_all_run.
  rewrite (capture_image_fault 0 w c0 (or_introl eq_refl) Hs); try assumption.
  - reflexivity.
  - rewrite Hcams. reflexivity.
Qed.

(** *** Start-up *)

(** With devices that do not fault, [__init__] leaves the controller
    with cameras 0 and 1 opened, in this order, and the other fields
    at their initial values. *)
Lemma init_opens_both_cameras w :
  faultless env ->
  snd (init env w) = Ok PyNone /\
  self (fst (init env w)) = set_cameras [Picam 0; Picam 1] init_fields.
Proof.
  intros Hq. unfold init, setup_cameras, try_except, create_preview_configuration.
  cbn [range2 for_each]. run_monad. rewrite !Hq.
  destruct (path_exists env _ _); simpl; repeat (rewrite Hq; simpl);
    split; reflexivity.
Qed.

End Properties.

(** * The properties on the bench *)

Lemma bench_shaped : shaped Bench.ready.
Proof. repeat split. Qed.

Lemma bench_in_bounds : in_bounds Bench.ready.
Proof. split; repeat constructor; lia. Qed.

Lemma bench_steady_faultless : faultless Bench.steady.
Proof. intros h c. reflexivity. Qed.

(** The scenario of the specification: ten steps up stop at 8, fifty
    steps down stop at -100. *)
Example scenario_clamps :
  exposure_values (self (adjust_all Bench.steady Bench.scenario Bench.start)) = [8; -1] /\
  brightness_values (self (adjust_all Bench.steady Bench.scenario Bench.start)) = [-100; -5].
Proof. split; vm_compute; reflexivity. Qed.

Lemma adjust_sequence_in_bounds_witness :
  let w' := adjust_all Bench.steady Bench.scenario Bench.start in
  let again := adjust Bench.steady (AdjustExposure 0 (PyStr "up")) w' in
  in_bounds (self w') /\
  exposure_values (self (fst again)) = <[0%nat:=8]> (exposure_values (self w')) /\
  self (fst again) = self w' /\
  snd again = Ok PyNone.
Proof.
  intros w' again.
  assert (Hvalid : Forall (fun a => valid_slot (slot_of a)) Bench.scenario).
  { unfold Bench.scenario. simpl.
    repeat (constructor; [first [left; reflexivity | right; reflexivity] |]).
    constructor. }
  destruct (adjust_sequence_in_bounds Bench.steady Bench.scenario Bench.start
              bench_shaped bench_in_bounds Hvalid) as [Hb Hstep].
  split; [exact Hb |].
  destruct (Hstep (AdjustExposure 0 (PyStr "up")) (or_introl eq_refl)) as [Hspec Hlim].
  assert (Hat : parameter_of (AdjustExposure 0 (PyStr "up")) (self w')
                  !! Z.to_nat (slot_of (AdjustExposure 0 (PyStr "up")))
                = Some (limit_of (AdjustExposure 0 (PyStr "up"))))
    by (vm_compute; reflexivity).
  split; [exact (Hspec 8 Hat) |].
  destruct (Hlim Hat) as [Hsame Hok].
  split; [exact Hsame | exact (Hok bench_steady_faultless)].
Defined.

Lemma other_direction_steps_down_witness :
  exposure_values (self (fst (adjust_exposure Bench.steady 1 (PyStr "Up") Bench.start)))
    = [0; -1] /\
  brightness_values (self (fst (adjust_brightness 1 (PyStr "Up") Bench.start)))
    = [0; -5].
Proof.
  assert (Hd : PyStr "Up" <> PyStr "up") by (intros H; discriminate H).
  destruct (other_direction_steps_down Bench.steady 1 (PyStr "Up") Bench.start
              (or_intror eq_refl) bench_shaped Hd)
    as (ve & vb & cam & Hve & Hvb & _ & He & Hb & _).
  simpl in Hve, Hvb. injection Hve as <-. injection Hvb as <-.
  split; [exact He | exact Hb].
Defined.

Lemma capture_image_writes_adjusted_frame_witness :
  capture_image Bench.ops Bench.steady 1 Bench.brightened =
    (World (self Bench.brightened)
       [Strftime "%Y%m%d_%H%M%S"; CaptureArray (Picam 1);
        Imwrite "camera_captures/camera2_20240102_030405.jpg" [21; 120; 220];
        Print "Image saved as camera_captures/camera2_20240102_030405.jpg"],
     Ok (PyStr "camera_captures/camera2_20240102_030405.jpg")).
Proof.
  apply (capture_image_writes_adjusted_frame Bench.ops Bench.steady 1 Bench.brightened
           (Picam 1) 20 (or_intror eq_refl)).
  - repeat split.
  - reflexivity.
  - reflexivity.
  - reflexivity.
  - reflexivity.
Defined.

(** C5 as claimed fails: from index 0 the newly selected option is
    (1280, 720), and the call returns [None], not that pair. *)
Lemma change_resolution_returns_none :
  current_resolution_idx (self (fst (change_resolution Bench.steady Bench.start))) = 1 /\
  resolution_options Bench.ready !! 1%nat = Some (1280, 720) /\
  snd (change_resolution Bench.steady Bench.start) = Ok PyNone /\
  snd (change_resolution Bench.steady Bench.start) <> Ok (PyTuple2 1280 720).
Proof.
  repeat split; try (vm_compute; reflexivity).
  vm_compute. intros H. discriminate H.
Qed.

Lemma change_resolution_advances_index_witness :
  self (fst (change_resolution Bench.steady Bench.start)) =
    set_current_resolution_idx 1 Bench.ready /\
  snd (change_resolution Bench.steady Bench.start) = Ok PyNone.
Proof.
  assert (Hn : 0 < len (resolution_options (self Bench.start))) by (vm_compute; reflexivity).
  destruct (change_resolution_advances_index Bench.steady Bench.start (Picam 0) (Picam 1)
              eq_refl Hn) as (Hself & _ & _ & size & _ & Hrun).
  split; [exact Hself |].
  rewrite (Hrun bench_steady_faultless). reflexivity.
Defined.

Lemma resolution_cycle_restores_witness :
  self (change_resolution_times Bench.steady 4 Bench.start) = self Bench.start.
Proof.
  assert (Hidx : 0 <= current_resolution_idx (self Bench.start)
                 < len (resolution_options (self Bench.start)))
    by (vm_compute; split; [discriminate | reflexivity]).
  exact (proj2 (proj2 (resolution_cycle_restores Bench.steady Bench.start Hidx))).
Defined.

Lemma change_resolution_slot_by_slot_witness :
  exists size done,
    resolution_options Bench.ready !! 1%nat = Some size /\
    trace (fst (change_resolution Bench.steady Bench.start)) = done /\
    done = renegotiation size (Picam 0) ++ renegotiation size (Picam 1) ++
           [Print ("Resolution changed to " +:+ pretty (fst size) +:+ "x"
                   +:+ pretty (snd size))] /\
    renegotiation size (Picam 0) `prefix_of` done.
Proof.
  assert (Hn : 0 < len (resolution_options (self Bench.start))) by (vm_compute; reflexivity).
  destruct (change_resolution_slot_by_slot Bench.steady Bench.start (Picam 0) (Picam 1)
              eq_refl Hn) as (size & done & Hsize & Htr & _ & Hfull & Hord).
  pose proof (Hfull bench_steady_faultless) as Hdone.
  exists size, done. split; [exact Hsize |].
  split; [exact Htr |]. split; [exact Hdone |].
  assert (Hne : Picam 0 <> Picam 1) by (intros H; discriminate H).
  apply (Hord Hne (Stop (Picam 1))); [| reflexivity].
  rewrite Hdone. unfold renegotiation. simpl. repeat constructor.
Defined.

Lemma unrecognized_key_ignored_witness :
  handle_key Bench.ops Bench.steady (Z.land (-1) 255) Bench.start = (Bench.start, Ok Next) /\
  self (fst (iteration Bench.ops Bench.steady (-1) Bench.start)) = self Bench.start.
Proof.
  assert (Hkey : Z.land (-1) 255 ∉ command_keys).
  { vm_compute. intros H.
    repeat (apply elem_of_cons in H as [H | H]; [discriminate H |]).
    apply elem_of_nil in H. exact H. }
  destruct (unrecognized_key_ignored Bench.ops Bench.steady (Z.land (-1) 255)
              Bench.start Hkey) as [Hhandle Hiter].
  split; [exact Hhandle | exact (Hiter (-1) eq_refl)].
Defined.

(** C2 as claimed fails: camera 0 delivers no frame in the first
    iteration; [run] raises at that capture.  Camera 1 is not
    captured, no line is printed about the failure, [waitKey] is not
    polled, and the second iteration never starts. *)
Lemma capture_fault_crashes_run :
  run Bench.ops Bench.camera0_down [-1; -1] Bench.start =
    (World Bench.ready (map Print banner ++ [CaptureArray (Picam 0)]),
     Raise (Fault (CaptureArray (Picam 0)))).
Proof. vm_compute. reflexivity. Qed.

Lemma capture_fault_ends_loop_witness :
  main_loop Bench.ops Bench.camera0_down [-1; -1] Bench.start =
    (World Bench.ready [CaptureArray (Picam 0)], Raise (Fault (CaptureArray (Picam 0)))) /\
  main_loop Bench.ops Bench.camera1_down [-1; -1] Bench.start =
    (World Bench.ready
       [CaptureArray (Picam 0); Strftime "%Y-%m-%d %H:%M:%S"; CaptureArray (Picam 1)],
     Raise (Fault (CaptureArray (Picam 1)))) /\
  run Bench.ops Bench.camera1_down [-1; -1] Bench.start =
    (World Bench.ready
       (map Print banner ++
        [CaptureArray (Picam 0); Strftime "%Y-%m-%d %H:%M:%S"; CaptureArray (Picam 1)]),
     Raise (Fault (CaptureArray (Picam 1)))).
Proof.
  split; [| split].
  - refine (proj1 (capture_fault_ends_loop Bench.ops Bench.camera0_down Bench.start
                     (Picam 0) (Picam 1) (-1) [-1] bench_shaped eq_refl) _).
    reflexivity.
  - refine (proj1 (proj2 (capture_fault_ends_loop Bench.ops Bench.camera1_down Bench.start
                            (Picam 0) (Picam 1) (-1) [-1] bench_shaped eq_refl)) _ _);
      reflexivity.
  - refine (proj2 (proj2 (capture_fault_ends_loop Bench.ops Bench.camera1_down Bench.start
                            (Picam 0) (Picam 1) (-1) [-1] bench_shaped eq_refl)) _ _ _).
    vm_compute. reflexivity.
Defined.

(** C3 as claimed fails: with camera 0 delivering no frame, the key
    [d] raises at slot 0's capture; slot 1's save is not attempted and
    nothing is printed. *)
Lemma save_all_skips_second_slot :
  handle_key Bench.ops Bench.camera0_down (ord "d") Bench.start =
    (World Bench.ready [Strftime "%Y%m%d_%H%M%S"; CaptureArray (Picam 0)],
     Raise (Fault (CaptureArray (Picam 0)))).
Proof. vm_compute. reflexivity. Qed.

Lemma save_all_stops_at_first_failure_witness :
  handle_key Bench.ops Bench.camera0_down (ord "d") Bench.brightened =
    (World (self Bench.brightened) [Strftime "%Y%m%d_%H%M%S"; CaptureArray (Picam 0)],
     Raise (Fault (CaptureArray (Picam 0)))).
Proof.
  refine (proj2 (save_all_stops_at_first_failure Bench.ops Bench.camera0_down
                   Bench.brightened (Picam 0) (Picam 1) _ eq_refl) _).
  - repeat split.
  - reflexivity.
Defined.

(** * Further properties of the controller *)

Section Coverage.

Context {Frame : Type} (cv : ImageOps Frame) (env : Env Frame).

Implicit Types (w : world Frame) (s : controller) (i : Z) (d : pyval).

Ltac run_all :=
  cbv [mbind M_bind mret M_ret get_self getitem setitem update invoke ask print
       strftime log raise py_index length self trace];
  simpl.

Lemma snoc_pair {A} (l : list A) (x y : A) : (l ++ [x]) ++ [y] = l ++ [x; y].
Proof. rewrite <- app_assoc. reflexivity. Qed.

(** *** Start-up *)

(** X1. With devices that do not fault, [__init__] checks the save
    directory, creates it exactly when it does not exist, opens camera
    0 and then camera 1 (open, configuration at 640x480, configure,
    start), prints the success line and returns [None]; the controller
    then holds the two cameras in this order and the initial values of
    all other fields. *)
Theorem init_faultless_trace w :
  faultless env ->
  let dir := "camera_captures" in
  init env w =
    (World (set_cameras [Picam 0; Picam 1] init_fields)
       (trace w ++ [PathExists dir]
          ++ (if path_exists env (trace w) dir then [] else [Makedirs dir])
          ++ opening (640, 480) 0 ++ opening (640, 480) 1
          ++ [Print "Both cameras initialized successfully"]),
     Ok PyNone).
Proof.
  intros Hq dir. subst dir.
  unfold init, setup_cameras, try_except, create_preview_configuration, opening.
  cbn [range2 for_each]. run_all. rewrite !Hq.
  destruct (path_exists env _ _); simpl; repeat (rewrite Hq; simpl);
    rewrite <- !app_assoc; reflexivity.
Qed.

(** X2. Whatever the devices do, [__init__] has two outcomes only: it
    returns [None] with cameras 0 and 1 opened, or it raises
    [SystemExit(1)], and then the last two entries of the trace are the
    call that faulted and the line "Error initializing cameras: ..."
    with the message of that fault. *)
Theorem init_succeeds_or_exits w :
  let r := init env w in
  (snd r = Ok PyNone /\ self (fst r) = set_cameras [Picam 0; Picam 1] init_fields) \/
  (exists c pre,
     snd r = Raise (SystemExit 1) /\
     trace (fst r) =
       pre ++ [c; Print ("Error initializing cameras: " +:+ message env (Fault c))]).
Proof.
  unfold init, setup_cameras, try_except, create_preview_configuration.
  cbn [range2 for_each]. run_all.
  repeat (match goal with
          | |- context [faults env ?h ?c] => destruct (faults env h c) eqn:?; simpl
          | |- context [path_exists env ?h ?p] => destruct (path_exists env h p); simpl
          end);
    first [ left; split; reflexivity
          | right; eexists _, _; split; [reflexivity | apply snoc_pair] ].
Qed.

(** *** Snapshots *)

Lemma getitem_out_of_range {A} (l : list A) i w :
  i < - len l \/ len l <= i -> getitem l i w = (w, Raise IndexError).
Proof.
  unfold len. intros Hi. unfold getitem, py_index.
  replace ((0 <=? i) && (i <? Z.of_nat (length l))) with false
    by (symmetry; apply andb_false_iff; destruct Hi;
        [left; apply Z.leb_gt | right; apply Z.ltb_ge]; lia).
  replace ((- Z.of_nat (length l) <=? i) && (i <? 0)) with false
    by (symmetry; apply andb_false_iff; destruct Hi;
        [left; apply Z.leb_gt | right; apply Z.ltb_ge]; lia).
  reflexivity.
Qed.

Lemma getitem_cases {A} (l : list A) i w :
  (exists x, getitem l i w = (w, Ok x)) \/ getitem l i w = (w, Raise IndexError).
Proof.
  unfold getitem. destruct (py_index _ _); [| right; reflexivity].
  destruct (l !! _); [left; eexists; reflexivity | right; reflexivity].
Qed.

Lemma capture_image_calls i w :
  self (fst (capture_image cv env i w)) = self w /\
  exists done,
    trace (fst (capture_image cv env i w)) = trace w ++ done /\
    forallb snapshot_call done = true.
Proof.
  unfold capture_image.
  rewrite bind_run. cbv [strftime]. rewrite bind_run. cbv [get_self]. cbn [self].
  set (w0 := World (self w) (trace w ++ [Strftime "%Y%m%d_%H%M%S"])).
  rewrite bind_run.
  destruct (getitem_cases (cameras (self w)) i w0) as [[cam ->] | ->].
  2: { split; [reflexivity |]. exists [Strftime "%Y%m%d_%H%M%S"]. split; reflexivity. }
  rewrite bind_run. cbv [ask]. cbn [self trace w0].
  destruct (faults env _ (CaptureArray cam)).
  { split; [reflexivity |]. eexists. split; [apply snoc_pair | reflexivity]. }
  rewrite bind_run.
  set (w1 := World _ ((_ ++ _) ++ [CaptureArray cam])).
  assert (Hw1 : trace w1 = trace w ++ [Strftime "%Y%m%d_%H%M%S"; CaptureArray cam])
    by apply snoc_pair.
  assert (Hs1 : self w1 = self w) by reflexivity.
  destruct (getitem_cases (brightness_values (self w)) i w1) as [[b Hb] | Hb];
    rewrite Hb.
  2: { split; [exact Hs1 |]. eexists. split; [exact Hw1 | reflexivity]. }
  rewrite bind_run.
  assert (Hadj : exists img,
            (if negb (b =? 0)
             then getitem (brightness_values (self w)) i
                    ≫= (fun beta => mret (convertScaleAbs cv
                           (captured env (trace w ++ [Strftime "%Y%m%d_%H%M%S"]) cam)
                           1 beta))
             else mret (captured env (trace w ++ [Strftime "%Y%m%d_%H%M%S"]) cam)) w1
            = (w1, Ok img)).
  { destruct (negb (b =? 0)).
    - rewrite bind_run, Hb. eexists. reflexivity.
    - eexists. reflexivity. }
  destruct Hadj as [img ->].
  rewrite bind_run. cbv [invoke ask]. rewrite bind_run. cbv [print log mret M_ret].
  cbn [self trace]. rewrite Hw1.
  destruct (faults env _ _); cbn [fst self trace]; (split; [exact Hs1 |]).
  - eexists. split; [rewrite <- app_assoc; reflexivity | reflexivity].
  - eexists. split; [rewrite <- !app_assoc; reflexivity | reflexivity].
Qed.

(** X3. For every index and whatever the devices do, [capture_image]
    leaves the controller as it is, and calls nothing but the clock,
    one camera's capture, the image write and [print]. *)
Theorem capture_image_only_saves i w :
  self (fst (capture_image cv env i w)) = self w /\
  exists done,
    trace (fst (capture_image cv env i w)) = trace w ++ done /\
    forallb snapshot_call done = true.
Proof. apply capture_image_calls. Qed.

(** X4. An index outside [-len(cameras), len(cameras)) makes
    [capture_image] raise [IndexError] after it has read the clock:
    no camera is asked for a frame and nothing is written or printed. *)
Theorem capture_image_bad_index i w :
  i < - len (cameras (self w)) \/ len (cameras (self w)) <= i ->
  capture_image cv env i w =
    (World (self w) (trace w ++ [Strftime "%Y%m%d_%H%M%S"]), Raise IndexError).
Proof.
  intros Hi. unfold capture_image.
  rewrite bind_run. cbv [strftime]. rewrite bind_run. cbv [get_self]. cbn [self].
  rewrite bind_run, (getitem_out_of_range _ _ _ Hi). reflexivity.
Qed.

(** What [capture_image] does on slot 0 or 1, fault by fault. *)
Lemma capture_image_run i w cam b :
  valid_slot i -> shaped (self w) ->
  cameras (self w) !! Z.to_nat i = Some cam ->
  brightness_values (self w) !! Z.to_nat i = Some b ->
  let fmt := "%Y%m%d_%H%M%S" in
  let filename := snapshot_path (self w) i (localtime env (trace w) fmt) in
  let img := adjusted cv b (captured env (trace w ++ [Strftime fmt]) cam) in
  capture_image cv env i w =
    if faults env (trace w ++ [Strftime fmt]) (CaptureArray cam) then
      (World (self w) (trace w ++ [Strftime fmt; CaptureArray cam]),
       Raise (Fault (CaptureArray cam)))
    else if faults env (trace w ++ [Strftime fmt; CaptureArray cam])
              (Imwrite filename img) then
      (World (self w) (trace w ++ [Strftime fmt; CaptureArray cam; Imwrite filename img]),
       Raise (Fault (Imwrite filename img)))
    else
      (World (self w)
         (trace w ++ [Strftime fmt; CaptureArray cam; Imwrite filename img;
                      Print ("Image saved as " +:+ filename)]),
       Ok (PyStr filename)).
Proof.
  intros Hi Hs Hcam Hb fmt filename img. subst fmt.
  unfold capture_image.
  rewrite bind_run. cbv [strftime]. rewrite bind_run. cbv [get_self]. cbn [self].
  set (w0 := World (self w) (trace w ++ [Strftime "%Y%m%d_%H%M%S"])).
  destruct (getitem_slot (cameras (self w)) i w0 Hi (proj1 Hs)) as (cam' & Hcam' & Hgc).
  assert (cam' = cam) as -> by congruence.
  rewrite bind_run, Hgc, bind_run. cbv [ask]. cbn [self trace w0].
  rewrite <- (snoc_pair (trace w) (Strftime "%Y%m%d_%H%M%S") (CaptureArray cam)).
  destruct (faults env _ (CaptureArray cam)); [reflexivity |].
  set (w1 := World _ ((_ ++ _) ++ [CaptureArray cam])).
  destruct (getitem_slot (brightness_values (self w)) i w1 Hi (proj2 (proj2 Hs)))
    as (b' & Hb' & Hget).
  assert (b' = b) as -> by congruence.
  rewrite bind_run, Hget, bind_run.
  assert (Himg : (if negb (b =? 0)
                  then getitem (brightness_values (self w)) i
                         ≫= (fun beta => mret (convertScaleAbs cv
                                (captured env (trace w ++ [Strftime "%Y%m%d_%H%M%S"]) cam)
                                1 beta))
                  else mret (captured env (trace w ++ [Strftime "%Y%m%d_%H%M%S"]) cam)) w1
                 = (w1, Ok img)).
  { subst img. unfold adjusted. destruct (b =? 0); simpl.
    - reflexivity.
    - rewrite bind_run, Hget. reflexivity. }
  rewrite Himg, bind_run. cbv [invoke ask]. rewrite bind_run.
  cbv [print log mret M_ret]. cbn [self trace w1].
  fold (snapshot_path (self w) i (localtime env (trace w) "%Y%m%d_%H%M%S")).
  fold filename.
  destruct (faults env _ (Imwrite filename img)).
  - rewrite <- !app_assoc. reflexivity.
  - rewrite <- !app_assoc. reflexivity.
Qed.

(** X5. On slot 0 or 1, when the frame was captured but the write
    raises, [capture_image] raises that fault: the write is the last
    call, the line "Image saved as ..." is not printed and no path is
    returned. *)
Theorem capture_image_write_fault i w cam b :
  valid_slot i -> shaped (self w) ->
  cameras (self w) !! Z.to_nat i = Some cam ->
  brightness_values (self w) !! Z.to_nat i = Some b ->
  let fmt := "%Y%m%d_%H%M%S" in
  let filename := snapshot_path (self w) i (localtime env (trace w) fmt) in
  let img := adjusted cv b (captured env (trace w ++ [Strftime fmt]) cam) in
  faults env (trace w ++ [Strftime fmt]) (CaptureArray cam) = false ->
  faults env (trace w ++ [Strftime fmt; CaptureArray cam]) (Imwrite filename img) = true ->
  capture_image cv env i w =
    (World (self w) (trace w ++ [Strftime fmt; CaptureArray cam; Imwrite filename img]),
     Raise (Fault (Imwrite filename img))).
Proof.
  intros Hi Hs Hcam Hb fmt filename img Hcap Hwrite.
  rewrite (capture_image_run i w cam b Hi Hs Hcam Hb).
  fold fmt filename img. rewrite Hcap, Hwrite. reflexivity.
Qed.

(** *** Adjustments *)

Lemma setitem_out_of_range {A} (l : list A) i (x : A) w :
  i < - len l \/ len l <= i -> setitem l i x w = (w, Raise IndexError).
Proof.
  unfold len. intros Hi. unfold setitem, py_index.
  replace ((0 <=? i) && (i <? Z.of_nat (length l))) with false
    by (symmetry; apply andb_false_iff; destruct Hi;
        [left; apply Z.leb_gt | right; apply Z.ltb_ge]; lia).
  replace ((- Z.of_nat (length l) <=? i) && (i <? 0)) with false
    by (symmetry; apply andb_false_iff; destruct Hi;
        [left; apply Z.leb_gt | right; apply Z.ltb_ge]; lia).
  reflexivity.
Qed.

Lemma setitem_cases {A} (l : list A) i (x : A) w :
  (exists n, setitem l i x w = (w, Ok (<[n:=x]> l))) \/
  setitem l i x w = (w, Raise IndexError).
Proof.
  unfold setitem. destruct (py_index _ _); [left; eexists; reflexivity | right; reflexivity].
Qed.

(** X6. An index outside [-len, len) of the parameter list makes
    [adjust_exposure] and [adjust_brightness] raise [IndexError] at
    once: no value changes, the driver is not called and nothing is
    printed. *)
Theorem adjust_bad_index a w :
  slot_of a < - len (parameter_of a (self w)) \/
    len (parameter_of a (self w)) <= slot_of a ->
  adjust env a w = (w, Raise IndexError).
Proof.
  intros Hi. destruct a as [i d | i d]; simpl in *.
  - unfold adjust_exposure. rewrite bind_run. cbv [get_self]. rewrite bind_run.
    destruct (py_eqb d (PyStr "up"));
      rewrite bind_run, (getitem_out_of_range _ _ _ Hi); reflexivity.
  - unfold adjust_brightness. rewrite bind_run. cbv [get_self]. rewrite bind_run.
    destruct (py_eqb d (PyStr "up"));
      rewrite bind_run, (getitem_out_of_range _ _ _ Hi); reflexivity.
Qed.

(** X7. For every index and direction, [adjust_brightness] calls no
    device: it writes at most lines to standard output, and changes
    no field of the controller other than [brightness_values], whose
    length it keeps. *)
Theorem adjust_brightness_is_local i d w :
  let r := @adjust_brightness Frame i d w in
  (exists lines, trace (fst r) = trace w ++ map Print lines) /\
  self (fst r) = set_brightness_values (brightness_values (self (fst r))) (self w) /\
  length (brightness_values (self (fst r))) = length (brightness_values (self w)).
Proof.
  assert (Hsame : (exists lines : list string, trace w = trace w ++ map Print lines) /\
                  self w = set_brightness_values (brightness_values (self w)) (self w) /\
                  length (brightness_values (self w)) = length (brightness_values (self w))).
  { split; [exists []; rewrite app_nil_r; reflexivity |].
    split; [destruct (self w); reflexivity | reflexivity]. }
  cbv zeta. unfold adjust_brightness. rewrite bind_run. cbv [get_self]. rewrite bind_run.
  assert (Hstep : forall x,
            (exists l', length l' = length (brightness_values (self w)) /\
               (getitem (brightness_values (self w)) i
                  ≫= (fun v => setitem (brightness_values (self w)) i (x v)
                  ≫= (fun l => update (set_brightness_values l)))) w
               = (World (set_brightness_values l' (self w)) (trace w), Ok tt)) \/
            (getitem (brightness_values (self w)) i
               ≫= (fun v => setitem (brightness_values (self w)) i (x v)
               ≫= (fun l => update (set_brightness_values l)))) w
            = (w, Raise IndexError)).
  { intros x. rewrite bind_run. unfold getitem, setitem.
    destruct (py_index _ _) as [n |]; [| right; reflexivity].
    destruct (brightness_values (self w) !! n) as [v |]; [| right; reflexivity].
    left. exists (<[n:=x v]> (brightness_values (self w))).
    split; [apply length_insert | reflexivity]. }
  destruct (py_eqb d (PyStr "up"));
    [ destruct (Hstep (fun v => Z.min 100 (v + 5))) as [(l' & Hl & ->) | ->]
    | destruct (Hstep (fun v => Z.max (-100) (v - 5))) as [(l' & Hl & ->) | ->] ];
    try exact Hsame;
    rewrite bind_run; cbv [get_self]; rewrite bind_run; cbn [self];
    destruct (getitem_cases (brightness_values (set_brightness_values l' (self w))) i
                (World (set_brightness_values l' (self w)) (trace w)))
      as [[v Hv] | Hv]; rewrite Hv; simpl;
    (split; [first [eexists [_]; reflexivity | exists []; rewrite app_nil_r; reflexivity] |]);
    (split; [reflexivity | exact Hl]).
Qed.

(** X8. On slot 0 or 1, the value that [adjust_exposure] hands to the
    driver's [set_controls] is the value it has just stored for that
    slot, and the other slot's value is untouched.  When the driver
    raises, the call raises that fault with the new value already
    stored and without printing; otherwise it prints the new value and
    returns [None]. *)
Theorem adjust_exposure_applies_stored_value i d w cam :
  valid_slot i -> shaped (self w) ->
  cameras (self w) !! Z.to_nat i = Some cam ->
  let r := adjust_exposure env i d w in
  exists v',
    exposure_values (self (fst r)) !! Z.to_nat i = Some v' /\
    (forall j, j <> Z.to_nat i ->
       exposure_values (self (fst r)) !! j = exposure_values (self w) !! j) /\
    let c := SetControls cam "ExposureValue" v' in
    if faults env (trace w) c
    then r = (World (self (fst r)) (trace w ++ [c]), Raise (Fault c))
    else r = (World (self (fst r))
                (trace w ++ [c; Print ("Camera " +:+ pretty (i + 1)
                                       +:+ " exposure compensation: " +:+ pretty v')]),
              Ok PyNone).
Proof.
  intros Hi Hs Hcam r. subst r.
  destruct (slot_lookup (exposure_values (self w)) i Hi (proj1 (proj2 Hs))) as [v Hv].
  rewrite (adjust_exposure_run env i d w v cam Hi Hs Hv Hcam).
  exists (if going_up d then Z.min 8 (v + 1) else Z.max (-8) (v - 1)).
  assert (Hlt : (Z.to_nat i < length (exposure_values (self w)))%nat)
    by (apply lookup_lt_is_Some; eauto).
  cbv zeta.
  destruct (faults env _ _); cbn [fst self exposure_values set_exposure_values].
  - split; [apply list_lookup_insert_eq; assumption |].
    split; [intros j Hj; apply list_lookup_insert_ne; congruence | reflexivity].
  - split; [apply list_lookup_insert_eq; assumption |].
    split; [intros j Hj; apply list_lookup_insert_ne; congruence |].
    rewrite <- app_assoc. reflexivity.
Qed.

Lemma adjust_exposure_twice i d1 d2 w v :
  valid_slot i -> shaped (self w) ->
  exposure_values (self w) !! Z.to_nat i = Some v ->
  let step d x := if going_up d then Z.min 8 (x + 1) else Z.max (-8) (x - 1) in
  exposure_values
    (self (fst (adjust_exposure env i d2 (fst (adjust_exposure env i d1 w))))) =
  <[Z.to_nat i:=step d2 (step d1 v)]> (exposure_values (self w)).
Proof.
  intros Hi Hs Hv step.
  assert (Hlt : (Z.to_nat i < length (exposure_values (self w)))%nat)
    by (apply lookup_lt_is_Some; eauto).
  pose proof (adjust_exposure_self env i d1 w v Hi Hs Hv) as H1.
  assert (Hs1 : shaped (self (fst (adjust_exposure env i d1 w)))).
  { rewrite H1. apply shaped_set_exposure; [assumption | apply length_insert]. }
  rewrite (adjust_exposure_self env i d2 _ (step d1 v) Hi Hs1).
  - rewrite H1. simpl. apply list_insert_insert_eq.
  - rewrite H1. simpl. apply list_lookup_insert_eq. assumption.
Qed.

Lemma adjust_brightness_twice i d1 d2 w v :
  valid_slot i -> shaped (self w) ->
  brightness_values (self w) !! Z.to_nat i = Some v ->
  let step d x := if going_up d then Z.min 100 (x + 5) else Z.max (-100) (x - 5) in
  brightness_values
    (self (fst (@adjust_brightness Frame i d2 (fst (adjust_brightness i d1 w))))) =
  <[Z.to_nat i:=step d2 (step d1 v)]> (brightness_values (self w)).
Proof.
  intros Hi Hs Hv step.
  assert (Hlt : (Z.to_nat i < length (brightness_values (self w)))%nat)
    by (apply lookup_lt_is_Some; eauto).
  pose proof (adjust_brightness_run i d1 w v Hi Hs Hv) as H1. cbv zeta in H1.
  rewrite H1. cbn [fst].
  rewrite (adjust_brightness_run i d2 _ (step d1 v) Hi).
  - simpl. apply list_insert_insert_eq.
  - apply shaped_set_brightness; [assumption | apply length_insert].
  - simpl. apply list_lookup_insert_eq. assumption.
Qed.

(** X9. On slot 0 or 1, a step up followed by a step down gives back
    the exposure values when the slot's value is in [-8, 7], and the
    brightness values when it is in [-100, 95]; from the upper bound
    the pair of steps ends one step below it (7, respectively 95)
    instead. *)
Theorem up_then_down i w :
  valid_slot i -> shaped (self w) ->
  let up := PyStr "up" in
  let down := PyStr "down" in
  let exposure_after :=
    exposure_values
      (self (fst (adjust_exposure env i down (fst (adjust_exposure env i up w))))) in
  let brightness_after :=
    brightness_values
      (self (fst (@adjust_brightness Frame i down (fst (adjust_brightness i up w))))) in
  (forall v, exposure_values (self w) !! Z.to_nat i = Some v ->
     (-8 <= v <= 7 -> exposure_after = exposure_values (self w)) /\
     (v = 8 -> exposure_after = <[Z.to_nat i:=7]> (exposure_values (self w)))) /\
  (forall v, brightness_values (self w) !! Z.to_nat i = Some v ->
     (-100 <= v <= 95 -> brightness_after = brightness_values (self w)) /\
     (v = 100 -> brightness_after = <[Z.to_nat i:=95]> (brightness_values (self w)))).
Proof.
  intros Hi Hs up down exposure_after brightness_after. split.
  - intros v Hv. subst exposure_after.
    rewrite (adjust_exposure_twice i up down w v Hi Hs Hv). simpl. split.
    + intros Hb. replace (Z.max (-8) (Z.min 8 (v + 1) - 1)) with v by lia.
      apply list_insert_id. assumption.
    + intros ->. reflexivity.
  - intros v Hv. subst brightness_after.
    rewrite (adjust_brightness_twice i up down w v Hi Hs Hv). simpl. split.
    + intros Hb. replace (Z.max (-100) (Z.min 100 (v + 5) - 5)) with v by lia.
      apply list_insert_id. assumption.
    + intros ->. reflexivity.
Qed.

Lemma adjust_keeps_grid a w :
  valid_slot (slot_of a) -> shaped (self w) -> on_grid (self w) ->
  shaped (self (fst (adjust env a w))) /\ on_grid (self (fst (adjust env a w))).
Proof.
  intros Hi Hs Hg. destruct a as [i d | i d]; simpl in Hi |- *.
  - destruct (slot_lookup (exposure_values (self w)) i Hi (proj1 (proj2 Hs))) as [v Hv].
    rewrite (adjust_exposure_self env i d w v Hi Hs Hv). split.
    + apply shaped_set_exposure; [assumption | apply length_insert].
    + exact Hg.
  - destruct (slot_lookup (brightness_values (self w)) i Hi (proj2 (proj2 Hs))) as [v Hv].
    rewrite (adjust_brightness_run i d w v Hi Hs Hv). simpl. split.
    + apply shaped_set_brightness; [assumption | apply length_insert].
    + unfold on_grid. simpl. apply Forall_insert; [exact Hg |].
      pose proof (proj1 (Forall_lookup _ _) Hg _ _ Hv) as [k Hk]. simpl in Hk.
      destruct (going_up d).
      * destruct (Z.min_spec 100 (v + 5)) as [[_ ->] | [_ ->]];
          [exists 20; lia | exists (k + 1); lia].
      * destruct (Z.max_spec (-100) (v - 5)) as [[_ ->] | [_ ->]];
          [exists (k - 1); lia | exists (-20); lia].
Qed.

(** X10. Brightness moves on the grid of its step: when every
    brightness value is a multiple of 5, as after [__init__], it still
    is after any sequence of adjustments on slots 0 and 1, clamped
    steps included. *)
Theorem brightness_stays_on_grid acts w :
  shaped (self w) -> on_grid (self w) ->
  Forall (fun a => valid_slot (slot_of a)) acts ->
  on_grid (self (adjust_all env acts w)).
Proof.
  revert w. induction acts as [| a acts IH]; intros w Hs Hg Hv; simpl.
  - exact Hg.
  - inversion Hv as [| ? ? Ha Hacts]; subst.
    destruct (adjust_keeps_grid a w Ha Hs Hg) as [Hs' Hg'].
    apply IH; assumption.
Qed.

(** X11. Indices -1 and -2 are not rejected: on a controller with two
    slots they address slot 1 and slot 0, so the adjustment changes
    the controller exactly as the call with index [i + 2] does, and
    [adjust_brightness] returns [None]. *)
Theorem negative_index_aliases_slot i d w :
  shaped (self w) -> i = -1 \/ i = -2 ->
  self (fst (adjust_exposure env i d w)) = self (fst (adjust_exposure env (i + 2) d w)) /\
  self (fst (@adjust_brightness Frame i d w)) = self (fst (adjust_brightness (i + 2) d w)) /\
  snd (@adjust_brightness Frame i d w) = Ok PyNone.
Proof.
  intros Hs Hi.
  destruct w as [[cams act prev ex br ro idx dir] tr].
  destruct Hs as (Hlc & Hle & Hlb); simpl in *.
  destruct cams as [|k0 [|k1 [|]]]; try discriminate Hlc.
  destruct ex as [|e0 [|e1 [|]]]; try discriminate Hle.
  destruct br as [|b0 [|b1 [|]]]; try discriminate Hlb.
  unfold adjust_exposure, adjust_brightness.
  destruct Hi as [-> | ->]; destruct (py_eqb d (PyStr "up"));
    cbv [exposure_values brightness_values cameras set_exposure_values
         set_brightness_values];
    run_all; repeat (destruct (faults env _ _); simpl); repeat split; reflexivity.
Qed.

(** *** The loop *)

Lemma then_ret_self {A B} (m : M Frame A) (x : B) w :
  self (fst ((m;; mret x) w)) = self (fst (m w)).
Proof. rewrite bind_run. destruct (m w) as [w' [a | e]]; reflexivity. Qed.

Lemma controller_ok_exposure s0 s l :
  controller_ok s0 s -> length l = length (exposure_values s) ->
  Forall (fun v => -8 <= v <= 8) l ->
  controller_ok s0 (set_exposure_values l s).
Proof.
  intros (Hc & Hr & Hd & Ha & (Hs1 & Hs2 & Hs3) & [He Hb] & Hi) Hl Hf.
  repeat split; simpl; first [assumption | congruence | lia].
Qed.

Lemma controller_ok_brightness s0 s l :
  controller_ok s0 s -> length l = length (brightness_values s) ->
  Forall (fun v => -100 <= v <= 100) l ->
  controller_ok s0 (set_brightness_values l s).
Proof.
  intros (Hc & Hr & Hd & Ha & (Hs1 & Hs2 & Hs3) & [He Hb] & Hi) Hl Hf.
  repeat split; simpl; first [assumption | congruence | lia].
Qed.

Lemma adjust_exposure_ok s0 d w :
  controller_ok s0 (self w) ->
  controller_ok s0 (self (fst (adjust_exposure env (active_camera (self w)) d w))).
Proof.
  intros Hok. pose proof Hok as (_ & _ & _ & Ha & Hs & [He Hb] & _).
  destruct (slot_lookup (exposure_values (self w)) _ Ha (proj1 (proj2 Hs))) as [v Hv].
  rewrite (adjust_exposure_self env _ d w v Ha Hs Hv).
  apply controller_ok_exposure; [assumption | apply length_insert |].
  apply Forall_insert; [assumption |].
  pose proof (proj1 (Forall_lookup _ _) He _ _ Hv) as Hv'. simpl in Hv'.
  destruct (going_up d); lia.
Qed.

Lemma adjust_brightness_ok s0 d w :
  controller_ok s0 (self w) ->
  controller_ok s0 (self (fst (@adjust_brightness Frame (active_camera (self w)) d w))).
Proof.
  intros Hok. pose proof Hok as (_ & _ & _ & Ha & Hs & [He Hb] & _).
  destruct (slot_lookup (brightness_values (self w)) _ Ha (proj2 (proj2 Hs))) as [v Hv].
  rewrite (adjust_brightness_run _ d w v Ha Hs Hv). cbn [fst self].
  apply controller_ok_brightness; [assumption | apply length_insert |].
  apply Forall_insert; [assumption |].
  pose proof (proj1 (Forall_lookup _ _) Hb _ _ Hv) as Hv'. simpl in Hv'.
  destruct (going_up d); lia.
Qed.

Lemma change_resolution_ok s0 w :
  controller_ok s0 (self w) ->
  controller_ok s0 (self (fst (change_resolution env w))).
Proof.
  intros (Hc & Hr & Hd & Ha & (Hs1 & Hs2 & Hs3) & [He Hb] & Hi).
  assert (Hn : 0 < len (resolution_options (self w))) by lia.
  rewrite (change_resolution_self env w Hn).
  pose proof (next_idx_range (self w) Hn).
  repeat split; simpl; first [assumption | lia].
Qed.

Lemma handle_key_ok s0 key w :
  controller_ok s0 (self w) ->
  controller_ok s0 (self (fst (handle_key cv env key w))).
Proof.
  intros Hok. pose proof Hok as (Hc & Hr & Hd & Ha & (Hs1 & Hs2 & Hs3) & [He Hb] & Hi).
  unfold handle_key.
  repeat (match goal with
          | |- context [key =? ?c] => destruct (key =? c)
          end); try exact Hok.
  - repeat split; first [assumption | apply Hi | left; reflexivity].
  - repeat split; first [assumption | apply Hi | right; reflexivity].
  - rewrite bind_run. cbv [get_self]. rewrite then_ret_self.
    rewrite (proj1 (capture_image_calls _ w)). exact Hok.
  - rewrite then_ret_self.
    rewrite (for_each_self (fun i => capture_image cv env i;; mret tt) range2);
      [exact Hok |].
    intros i w0. rewrite then_ret_self. apply capture_image_calls.
  - rewrite then_ret_self. apply change_resolution_ok. exact Hok.
  - rewrite bind_run. cbv [get_self]. rewrite then_ret_self.
    apply adjust_exposure_ok. exact Hok.
  - rewrite bind_run. cbv [get_self]. rewrite then_ret_self.
    apply adjust_exposure_ok. exact Hok.
  - rewrite bind_run. cbv [get_self]. rewrite then_ret_self.
    apply adjust_brightness_ok. exact Hok.
  - rewrite bind_run. cbv [get_self]. rewrite then_ret_self.
    apply adjust_brightness_ok. exact Hok.
  - run_all. destruct (negb _); repeat split; first [assumption | apply Hi].
Qed.

Lemma iteration_ok s0 pressed w :
  controller_ok s0 (self w) ->
  controller_ok s0 (self (fst (iteration cv env pressed w))).
Proof.
  intros Hok. unfold iteration. rewrite bind_run.
  pose proof (capture_frames_self cv env w) as Hcap.
  destruct (capture_frames _ _ _) as [w1 [frames | e]]; simpl in Hcap.
  2: { change (controller_ok s0 (self w1)). rewrite Hcap. exact Hok. }
  rewrite bind_run.
  pose proof (show_preview_self cv env frames w1) as Hshow.
  destruct (show_preview _ _ _ _) as [w2 [[] | e]]; simpl in Hshow;
    rewrite Hcap in Hshow.
  2: { change (controller_ok s0 (self w2)). rewrite Hshow. exact Hok. }
  rewrite bind_run. cbv [ask].
  destruct (faults env _ _).
  { change (controller_ok s0 (self w2)). rewrite Hshow. exact Hok. }
  cbv zeta. apply handle_key_ok. cbn [self]. rewrite Hshow. exact Hok.
Qed.

Lemma main_loop_ok s0 keys : forall w,
  controller_ok s0 (self w) ->
  controller_ok s0 (self (fst (main_loop cv env keys w))).
Proof.
  induction keys as [| pressed keys IH]; intros w Hok; [exact Hok |].
  cbn [main_loop]. rewrite bind_run.
  pose proof (iteration_ok s0 pressed w Hok) as Hit.
  destruct (iteration _ _ _ _) as [w1 [[|] | e]]; cbn [fst] in Hit.
  - apply IH. exact Hit.
  - exact Hit.
  - exact Hit.
Qed.

Lemma banner_printed (lines : list string) : forall w,
  for_each lines print w = (World (self w) (trace w ++ map Print lines), Ok tt).
Proof.
  induction lines as [| line lines IH]; intros w; simpl.
  - rewrite app_nil_r. destruct w; reflexivity.
  - rewrite bind_run. cbv [print log]. rewrite IH. cbn [self trace].
    rewrite <- app_assoc. reflexivity.
Qed.

(** X12. Whatever keys arrive and whatever the devices do, [run]
    keeps the controller well-formed: from a controller with two
    slots, values within their bounds, a valid active camera and a
    valid resolution index, the state in which [run] returns, raises
    or waits for the next key has the same cameras, resolution options
    and save directory, an active camera that is 0 or 1, exposure
    values in [-8, 8], brightness values in [-100, 100] and a valid
    resolution index. *)
Theorem run_keeps_controller_ok keys w :
  controller_ok (self w) (self w) ->
  controller_ok (self w) (self (fst (run cv env keys w))).
Proof.
  intros Hok. unfold run. rewrite bind_run, banner_printed, bind_run.
  pose proof (main_loop_ok (self w) keys
                (World (self w) (trace w ++ map Print banner)) Hok) as Hloop.
  destruct (main_loop _ _ _ _) as [w1 [[|] | e]]; cbn [fst] in Hloop;
    try exact Hloop.
  rewrite bind_run. cbv [invoke ask].
  destruct (faults env _ _); [exact Hloop |].
  rewrite bind_run. cbv [get_self]. rewrite bind_run. cbn [self].
  assert (Hstop : forall cam w0, self (fst (ask env (Stop cam) (fun _ => tt) w0)) = self w0).
  { intros cam w0. cbv [ask]. reflexivity. }
  pose proof (for_each_self (fun cam => ask env (Stop cam) (fun _ => tt))
                (cameras (self w1)) Hstop
                (World (self w1) (trace w1 ++ [DestroyAllWindows]))) as Hall.
  destruct (for_each _ _ _) as [w2 [[] | e]]; cbn [fst self] in Hall.
  - rewrite bind_run. cbv [print log mret M_ret].
    change (controller_ok (self w) (self w2)). rewrite Hall. exact Hloop.
  - change (controller_ok (self w) (self w2)). rewrite Hall. exact Hloop.
Qed.

Lemma iteration_quits pressed w w' f :
  Z.land pressed 255 = ord "q" ->
  iteration cv env pressed w = (w', Ok f) -> f = Break.
Proof.
  intros Hq. unfold iteration. rewrite bind_run.
  destruct (capture_frames _ _ _) as [w1 [frames | e]]; [| discriminate].
  rewrite bind_run.
  destruct (show_preview _ _ _ _) as [w2 [[] | e]]; [| discriminate].
  rewrite bind_run. cbv [ask].
  destruct (faults env _ _); [discriminate |].
  cbv zeta. rewrite Hq. intros H. injection H as _ <-. reflexivity.
Qed.

(** X13. Input that arrives after the quit key is never looked at:
    once [waitKey] has answered a value whose low byte is [q], the loop
    ends in that iteration, whatever keys would follow. *)
Theorem keys_after_quit_ignored before pressed after w :
  Z.land pressed 255 = ord "q" ->
  main_loop cv env (before ++ pressed :: after) w =
  main_loop cv env (before ++ [pressed]) w.
Proof.
  intros Hq. revert w. induction before as [| k before IH]; intros w.
  - cbn [app main_loop]. rewrite !bind_run.
    destruct (iteration cv env pressed w) as [w' [f | e]] eqn:Hit; [| reflexivity].
    rewrite (iteration_quits pressed w w' f Hq Hit). reflexivity.
  - cbn [app main_loop]. rewrite !bind_run.
    destruct (iteration cv env k w) as [w' [[|] | e]]; [apply IH | reflexivity ..].
Qed.

Lemma capture_frames_faultless w c0 c1 :
  faultless env -> shaped (self w) -> cameras (self w) = [c0; c1] ->
  let fmt := "%Y-%m-%d %H:%M:%S" in
  exists f0 f1,
    capture_frames cv env w =
      (World (self w)
         (trace w ++ [CaptureArray c0; Strftime fmt; CaptureArray c1; Strftime fmt]),
       Ok [f0; f1]).
Proof.
  intros Hq Hs Hcams fmt. subst fmt.
  rewrite (capture_frames_two cv env w c0 c1 Hcams).
  destruct (grab_frame_ok cv env 0 c0 w (or_introl eq_refl) Hs (Hq _ _)) as (f0 & ->).
  destruct (grab_frame_ok cv env 1 c1
              (World (self w) (trace w ++ [CaptureArray c0; Strftime "%Y-%m-%d %H:%M:%S"]))
              (or_intror eq_refl) Hs (Hq _ _)) as (f1 & ->).
  exists f0, f1. cbn [self trace]. rewrite <- app_assoc. reflexivity.
Qed.

(** The calls of an iteration before the key is dispatched. *)
Lemma iteration_faultless pressed w c0 c1 :
  faultless env -> shaped (self w) -> cameras (self w) = [c0; c1] ->
  let fmt := "%Y-%m-%d %H:%M:%S" in
  exists f0 f1,
    iteration cv env pressed w =
      handle_key cv env (Z.land pressed 255)
        (World (self w)
           (trace w ++ [CaptureArray c0; Strftime fmt; CaptureArray c1; Strftime fmt]
              ++ (if preview_active (self w)
                  then [Imshow "Dual Camera Preview"
                          (hstack cv [cvtColor_RGB2BGR cv f0; cvtColor_RGB2BGR cv f1])]
                  else [])
              ++ [WaitKey 1])).
Proof.
  intros Hq Hs Hcams fmt. subst fmt.
  destruct (capture_frames_faultless w c0 c1 Hq Hs Hcams) as (f0 & f1 & Hcap).
  exists f0, f1. unfold iteration. rewrite bind_run, Hcap, bind_run.
  unfold show_preview. rewrite bind_run. cbv [get_self]. cbn [self].
  destruct (preview_active (self w)).
  - cbv [invoke ask]. rewrite Hq. rewrite bind_run. cbv [ask]. rewrite Hq.
    cbv zeta. cbn [self trace map]. rewrite <- !app_assoc. reflexivity.
  - cbv [mret M_ret]. rewrite bind_run. cbv [ask]. rewrite Hq.
    cbv zeta. cbn [self trace]. rewrite <- !app_assoc. reflexivity.
Qed.

(** X14. With devices that do not fault, a quit key in the first
    iteration makes [run] return after the calls of that iteration
    followed by the clean-up in this order: [destroyAllWindows], stop
    of camera 0, stop of camera 1, the line "Application terminated";
    the controller is as it was. *)
Theorem quit_cleans_up pressed after w c0 c1 :
  faultless env -> shaped (self w) -> cameras (self w) = [c0; c1] ->
  Z.land pressed 255 = ord "q" ->
  let fmt := "%Y-%m-%d %H:%M:%S" in
  exists f0 f1,
    run cv env (pressed :: after) w =
      (World (self w)
         (trace w ++ map Print banner
            ++ [CaptureArray c0; Strftime fmt; CaptureArray c1; Strftime fmt]
            ++ (if preview_active (self w)
                then [Imshow "Dual Camera Preview"
                        (hstack cv [cvtColor_RGB2BGR cv f0; cvtColor_RGB2BGR cv f1])]
                else [])
            ++ [WaitKey 1; DestroyAllWindows; Stop c0; Stop c1;
                Print "Application terminated"]),
       Ok Break).
Proof.
  intros Hq Hs Hcams Hkey fmt. subst fmt.
  destruct (iteration_faultless pressed
              (World (self w) (trace w ++ map Print banner)) c0 c1 Hq Hs Hcams)
    as (f0 & f1 & Hit).
  exists f0, f1. unfold run. rewrite bind_run, banner_printed, bind_run.
  cbn [main_loop]. rewrite bind_run, Hit, Hkey.
  change (handle_key cv env (ord "q")) with (@mret (M Frame) _ _ Break).
  cbv [mret M_ret]. cbn [self trace].
  rewrite bind_run. cbv [invoke ask]. rewrite Hq.
  rewrite bind_run. cbv [get_self]. rewrite bind_run. cbn [self]. rewrite Hcams.
  cbn [for_each]. rewrite !bind_run. cbv [ask]. rewrite !Hq. cbn [self trace].
  cbv [mret M_ret]. rewrite bind_run. cbv [print log]. cbn [self trace].
  rewrite <- !app_assoc. reflexivity.
Qed.


Lemma exposure_key_self d w :
  self (fst ((s ← get_self; adjust_exposure env (active_camera s) d;; mret Next) w)) =
  self (fst (adjust_exposure env (active_camera (self w)) d w)).
Proof. rewrite bind_run. cbv [get_self]. apply then_ret_self. Qed.

Lemma brightness_key_self d w :
  self (fst ((s ← get_self; @adjust_brightness Frame (active_camera s) d;; mret Next) w)) =
  self (fst (@adjust_brightness Frame (active_camera (self w)) d w)).
Proof. rewrite bind_run. cbv [get_self]. apply then_ret_self. Qed.

(** X16. The keys [e], [c], [b] and [v] act on the active camera only:
    [e] and [c] step its exposure up and down by 1 within [-8, 8],
    [b] and [v] its brightness by 5 within [-100, 100]; the other
    slot's values, the other parameter and the active camera stay as
    they were. *)
Theorem parameter_keys_step_active_slot key w :
  key ∈ parameter_keys -> shaped (self w) -> valid_slot (active_camera (self w)) ->
  let a := Z.to_nat (active_camera (self w)) in
  let w' := fst (handle_key cv env key w) in
  exists ve vb,
    exposure_values (self w) !! a = Some ve /\
    brightness_values (self w) !! a = Some vb /\
    exposure_values (self w') =
      <[a:=keyed_step key (ord "e") (ord "c") (-8) 8 1 ve]> (exposure_values (self w)) /\
    brightness_values (self w') =
      <[a:=keyed_step key (ord "b") (ord "v") (-100) 100 5 vb]>
        (brightness_values (self w)) /\
    active_camera (self w') = active_camera (self w).
Proof.
  intros Hkey Hs Ha a w'. subst a w'.
  destruct (slot_lookup (exposure_values (self w)) _ Ha (proj1 (proj2 Hs))) as [ve Hve].
  destruct (slot_lookup (brightness_values (self w)) _ Ha (proj2 (proj2 Hs))) as [vb Hvb].
  exists ve, vb. split; [assumption |]. split; [assumption |].
  unfold parameter_keys in Hkey. simpl in Hkey.
  repeat (apply elem_of_cons in Hkey as [-> | Hkey]); [.. | apply elem_of_nil in Hkey; contradiction].
  - change (handle_key cv env (ord "e"))
      with (s ← get_self; adjust_exposure env (active_camera s) (PyStr "up");; mret Next).
    rewrite exposure_key_self, (adjust_exposure_self env _ _ w ve Ha Hs Hve).
    unfold keyed_step. simpl. rewrite (list_insert_id _ _ vb Hvb). repeat split.
  - change (handle_key cv env (ord "c"))
      with (s ← get_self; adjust_exposure env (active_camera s) (PyStr "down");; mret Next).
    rewrite exposure_key_self, (adjust_exposure_self env _ _ w ve Ha Hs Hve).
    unfold keyed_step. simpl. rewrite (list_insert_id _ _ vb Hvb). repeat split.
  - change (handle_key cv env (ord "b"))
      with (s ← get_self; @adjust_brightness Frame (active_camera s) (PyStr "up");;
            mret Next).
    rewrite brightness_key_self, (adjust_brightness_run _ _ w vb Ha Hs Hvb).
    unfold keyed_step. simpl. rewrite (list_insert_id _ _ ve Hve). repeat split.
  - change (handle_key cv env (ord "v"))
      with (s ← get_self; @adjust_brightness Frame (active_camera s) (PyStr "down");;
            mret Next).
    rewrite brightness_key_self, (adjust_brightness_run _ _ w vb Ha Hs Hvb).
    unfold keyed_step. simpl. rewrite (list_insert_id _ _ ve Hve). repeat split.
Qed.

(** X17. With devices that do not fault, selecting slot [i] (key [1]
    for slot 0, key [2] for slot 1) and then pressing [s] saves the
    frame of that slot's camera, with that slot's brightness, under
    the label [i + 1]; the selection itself only prints its line. *)
Theorem select_then_save i w c0 c1 :
  faultless env -> shaped (self w) -> cameras (self w) = [c0; c1] -> valid_slot i ->
  let w1 := fst (handle_key cv env (select_key i) w) in
  let fmt := "%Y%m%d_%H%M%S" in
  exists cam b,
    cameras (self w) !! Z.to_nat i = Some cam /\
    brightness_values (self w) !! Z.to_nat i = Some b /\
    w1 = World (set_active_camera i (self w))
           (trace w ++ [Print ("Camera " +:+ pretty (i + 1) +:+ " selected")]) /\
    let filename := snapshot_path (self w) i (localtime env (trace w1) fmt) in
    let img := adjusted cv b (captured env (trace w1 ++ [Strftime fmt]) cam) in
    handle_key cv env (ord "s") w1 =
      (World (self w1)
         (trace w1 ++ [Strftime fmt; CaptureArray cam; Imwrite filename img;
                       Print ("Image saved as " +:+ filename)]),
       Ok Next).
Proof.
  intros Hq Hs Hcams Hi w1 fmt. subst fmt.
  destruct (slot_lookup (cameras (self w)) i Hi (proj1 Hs)) as [cam Hcam].
  destruct (slot_lookup (brightness_values (self w)) i Hi (proj2 (proj2 Hs))) as [b Hb].
  exists cam, b. split; [assumption |]. split; [assumption |].
  assert (Hw1 : w1 = World (set_active_camera i (self w))
                       (trace w ++ [Print ("Camera " +:+ pretty (i + 1) +:+ " selected")])).
  { subst w1. destruct Hi as [-> | ->]; reflexivity. }
  split; [exact Hw1 |]. cbv zeta.
  change (handle_key cv env (ord "s"))
    with (s ← get_self; capture_image cv env (active_camera s);; mret Next).
  rewrite bind_run. cbv [get_self]. rewrite bind_run.
  rewrite Hw1. cbn [self trace active_camera set_active_camera].
  rewrite (capture_image_run i
             (World (set_active_camera i (self w))
                (trace w ++ [Print ("Camera " +:+ pretty (i + 1) +:+ " selected")]))
             cam b Hi Hs Hcam Hb).
  cbv zeta. rewrite !Hq. reflexivity.
Qed.

(** X18. With devices that do not fault, the key [d] saves slot 0 and
    then slot 1: each save reads the clock anew, captures its own
    camera, applies its own slot's brightness and writes under its own
    label, and the dispatch returns normally. *)
Theorem save_all_writes_both w c0 c1 b0 b1 :
  faultless env -> shaped (self w) ->
  cameras (self w) = [c0; c1] -> brightness_values (self w) = [b0; b1] ->
  let fmt := "%Y%m%d_%H%M%S" in
  let p0 := snapshot_path (self w) 0 (localtime env (trace w) fmt) in
  let img0 := adjusted cv b0 (captured env (trace w ++ [Strftime fmt]) c0) in
  let saved0 := [Strftime fmt; CaptureArray c0; Imwrite p0 img0;
                 Print ("Image saved as " +:+ p0)] in
  let p1 := snapshot_path (self w) 1 (localtime env (trace w ++ saved0) fmt) in
  let img1 := adjusted cv b1 (captured env ((trace w ++ saved0) ++ [Strftime fmt]) c1) in
  handle_key cv env (ord "d") w =
    (World (self w)
       ((trace w ++ saved0) ++ [Strftime fmt; CaptureArray c1; Imwrite p1 img1;
                                Print ("Image saved as " +:+ p1)]),
     Ok Next).
Proof.
  intros Hq Hs Hcams Hbr fmt p0 img0 saved0 p1 img1.
  rewrite (save_all_run cv env w).
  rewrite (capture_image_run 0 w c0 b0 (or_introl eq_refl) Hs);
    [| rewrite Hcams; reflexivity | rewrite Hbr; reflexivity].
  cbv zeta. rewrite !Hq. fold fmt p0 img0 saved0.
  rewrite (capture_image_run 1 (World (self w) (trace w ++ saved0)) c1 b1
             (or_intror eq_refl) Hs);
    [| cbn [self]; rewrite Hcams; reflexivity | cbn [self]; rewrite Hbr; reflexivity].
  cbv zeta. rewrite !Hq. reflexivity.
Qed.

(** X19. From a valid resolution index, [n] calls of
    [change_resolution] leave the index at [(index + n) % len], with
    the same resolution options, whatever the cameras answer. *)
Theorem resolution_index_after_calls n w :
  0 <= current_resolution_idx (self w) < len (resolution_options (self w)) ->
  let w' := change_resolution_times env n w in
  current_resolution_idx (self w') =
    (current_resolution_idx (self w) + Z.of_nat n) `mod` len (resolution_options (self w)) /\
  resolution_options (self w') = resolution_options (self w).
Proof.
  intros Hidx w'. subst w'.
  rewrite (change_resolution_times_self env n w Hidx). split; reflexivity.
Qed.

(** *** The overlay *)

(** X20. For every frame and index, [add_info_overlay] reads the
    clock once, calls nothing else and leaves the controller as it is;
    on slot 0 or 1 it returns a frame, and on an index outside the
    exposure list it raises [IndexError]. *)
Theorem add_info_overlay_effects frame i w :
  let r := add_info_overlay cv env frame i w in
  self (fst r) = self w /\
  trace (fst r) = trace w ++ [Strftime "%Y-%m-%d %H:%M:%S"] /\
  (valid_slot i -> shaped (self w) -> exists frame', snd r = Ok frame') /\
  (i < - len (exposure_values (self w)) \/ len (exposure_values (self w)) <= i ->
   snd r = Raise IndexError).
Proof.
  cbv zeta. split; [apply add_info_overlay_self |]. split; [| split].
  - unfold add_info_overlay. destruct (shape cv frame) as [height width].
    rewrite bind_run. cbv [strftime]. rewrite bind_run. cbv [get_self].
    rewrite bind_run. cbn [self].
    set (w0 := World (self w) (trace w ++ [Strftime "%Y-%m-%d %H:%M:%S"])).
    destruct (getitem_cases (exposure_values (self w)) i w0) as [[ev ->] | ->];
      [| reflexivity].
    rewrite bind_run.
    destruct (getitem_cases (brightness_values (self w)) i w0) as [[b ->] | ->];
      reflexivity.
  - intros Hi Hs. destruct (add_info_overlay_ok cv env frame i w Hi Hs) as (f & ->).
    exists f. reflexivity.
  - intros Hi. unfold add_info_overlay. destruct (shape cv frame) as [height width].
    rewrite bind_run. cbv [strftime]. rewrite bind_run. cbv [get_self].
    rewrite bind_run, (getitem_out_of_range _ _ _ Hi). reflexivity.
Qed.

(** *** Faults while reconfiguring and while cleaning up *)

Lemma reconfigure_both_raise size c0 c1 s tr w' e :
  for_each (enumerate [c0; c1]) (fun '(i, cam) => reconfigure env size cam) (World s tr)
    = (w', Raise e) ->
  exists c pre,
    e = Fault c /\ trace w' = pre ++ [c] /\ faults env pre c = true /\ self w' = s /\
    device_of c <> None.
Proof.
  unfold enumerate, reconfigure, create_preview_configuration.
  simpl imap. cbn [for_each]. run_all.
  repeat (match goal with
          | |- context [faults env ?h ?c] => destruct (faults env h c) eqn:?; simpl
          end);
    intros H; try discriminate H; injection H as <- <-;
    eexists _, _; (split; [reflexivity |]); (split; [reflexivity |]);
    (split; [assumption |]); (split; [reflexivity | discriminate]).
Qed.

(** X21. With cameras [c0; c1], [change_resolution] raises only the
    fault of a camera call: that call is the last entry of the trace,
    so the calls after it are not made and nothing is printed, while
    the resolution index has already moved on. *)
Theorem change_resolution_fault w c0 c1 w' e :
  cameras (self w) = [c0; c1] ->
  0 < len (resolution_options (self w)) ->
  change_resolution env w = (w', Raise e) ->
  exists c pre,
    e = Fault c /\ trace w' = pre ++ [c] /\ faults env pre c = true /\
    device_of c <> None /\
    current_resolution_idx (self w') = next_idx (self w).
Proof.
  intros Hcams Hn. destruct (change_resolution_run env w Hn) as (size & _ & ->).
  rewrite Hcams.
  destruct (for_each _ _ _) as [w1 [[] | e1]] eqn:Hloop; [discriminate |].
  intros H. injection H as <- <-.
  destruct (reconfigure_both_raise size c0 c1 _ _ _ _ Hloop)
    as (c & pre & -> & Htr & Hf & Hs & Hdev).
  exists c, pre. split; [reflexivity |]. split; [assumption |].
  split; [assumption |]. split; [assumption |].
  rewrite Hs. reflexivity.
Qed.




End Coverage.

(** * The further properties on the bench *)

Lemma bench_controller_ok : controller_ok Bench.ready Bench.ready.
Proof.
  repeat split; try reflexivity; try discriminate;
    first [left; reflexivity | repeat constructor; lia].
Qed.

Lemma init_faultless_trace_witness :
  init Bench.steady (World init_fields []) =
    (World Bench.ready
       ([PathExists "camera_captures"; Makedirs "camera_captures"]
          ++ opening (640, 480) 0 ++ opening (640, 480) 1
          ++ [Print "Both cameras initialized successfully"]),
     Ok PyNone).
Proof.
  exact (init_faultless_trace Bench.steady (World init_fields []) bench_steady_faultless).
Defined.

Lemma capture_image_bad_index_witness :
  capture_image Bench.ops Bench.steady 2 Bench.start =
    (World Bench.ready [Strftime "%Y%m%d_%H%M%S"], Raise IndexError).
Proof.
  apply (capture_image_bad_index Bench.ops Bench.steady 2 Bench.start).
  right. vm_compute. discriminate.
Defined.

Lemma capture_image_write_fault_witness :
  capture_image Bench.ops Bench.disk_full 1 Bench.brightened =
    (World (self Bench.brightened)
       [Strftime "%Y%m%d_%H%M%S"; CaptureArray (Picam 1);
        Imwrite "camera_captures/camera2_20240102_030405.jpg" [21; 120; 220]],
     Raise (Fault (Imwrite "camera_captures/camera2_20240102_030405.jpg" [21; 120; 220]))).
Proof.
  apply (capture_image_write_fault Bench.ops Bench.disk_full 1 Bench.brightened
           (Picam 1) 20 (or_intror eq_refl)).
  - repeat split.
  - reflexivity.
  - reflexivity.
  - reflexivity.
  - reflexivity.
Defined.

Lemma adjust_bad_index_witness :
  adjust Bench.steady (AdjustExposure 2 (PyStr "up")) Bench.start =
    (Bench.start, Raise IndexError) /\
  adjust Bench.steady (AdjustBrightness (-3) (PyStr "down")) Bench.start =
    (Bench.start, Raise IndexError).
Proof.
  split.
  - apply (adjust_bad_index Bench.steady (AdjustExposure 2 (PyStr "up")) Bench.start).
    right. vm_compute. discriminate.
  - apply (adjust_bad_index Bench.steady (AdjustBrightness (-3) (PyStr "down")) Bench.start).
    left. vm_compute. reflexivity.
Defined.

Lemma adjust_exposure_applies_stored_value_witness :
  adjust_exposure Bench.controls_rejected 0 (PyStr "up") Bench.start =
    (World (set_exposure_values [1; 0] Bench.ready)
       [SetControls (Picam 0) "ExposureValue" 1],
     Raise (Fault (SetControls (Picam 0) "ExposureValue" 1))).
Proof.
  destruct (adjust_exposure_applies_stored_value Bench.controls_rejected 0 (PyStr "up")
              Bench.start (Picam 0) (or_introl eq_refl) bench_shaped eq_refl)
    as (v' & Hv & _ & Hrun).
  vm_compute in Hv. injection Hv as <-.
  exact Hrun.
Defined.

Lemma up_then_down_witness :
  exposure_values
    (self (fst (adjust_exposure Bench.steady 0 (PyStr "down")
                  (fst (adjust_exposure Bench.steady 0 (PyStr "up") Bench.start)))))
    = [0; 0] /\
  brightness_values
    (self (fst (@adjust_brightness Bench.frame 1 (PyStr "down")
                  (fst (adjust_brightness 1 (PyStr "up") Bench.start)))))
    = [0; 0].
Proof.
  destruct (up_then_down Bench.steady 0 Bench.start (or_introl eq_refl) bench_shaped)
    as [He _].
  destruct (up_then_down Bench.steady 1 Bench.start (or_intror eq_refl) bench_shaped)
    as [_ Hb].
  split.
  - apply (proj1 (He 0 eq_refl)). lia.
  - apply (proj1 (Hb 0 eq_refl)). lia.
Defined.

Lemma brightness_stays_on_grid_witness :
  on_grid (self (adjust_all Bench.steady Bench.scenario Bench.start)).
Proof.
  apply (brightness_stays_on_grid Bench.steady Bench.scenario Bench.start bench_shaped).
  - repeat constructor; exists 0; reflexivity.
  - unfold Bench.scenario. simpl.
    repeat (constructor; [first [left; reflexivity | right; reflexivity] |]).
    constructor.
Defined.

Lemma negative_index_aliases_slot_witness :
  self (fst (@adjust_brightness Bench.frame (-1) (PyStr "up") Bench.start)) =
    set_brightness_values [0; 5] Bench.ready /\
  snd (@adjust_brightness Bench.frame (-1) (PyStr "up") Bench.start) = Ok PyNone.
Proof.
  destruct (negative_index_aliases_slot Bench.steady (-1) (PyStr "up") Bench.start
              bench_shaped (or_introl eq_refl)) as (_ & Hb & Hok).
  split; [rewrite Hb; reflexivity | exact Hok].
Defined.

Lemma run_keeps_controller_ok_witness :
  controller_ok Bench.ready
    (self (fst (run Bench.ops Bench.steady Bench.session Bench.start))) /\
  controller_ok Bench.ready
    (self (fst (run Bench.ops Bench.controls_rejected Bench.session Bench.start))).
Proof.
  split.
  - exact (run_keeps_controller_ok Bench.ops Bench.steady Bench.session Bench.start
             bench_controller_ok).
  - exact (run_keeps_controller_ok Bench.ops Bench.controls_rejected Bench.session
             Bench.start bench_controller_ok).
Defined.

Lemma keys_after_quit_ignored_witness :
  main_loop Bench.ops Bench.steady ([ord "e"] ++ (ord "q" + 256) :: [ord "e"; ord "r"])
    Bench.start =
  main_loop Bench.ops Bench.steady ([ord "e"] ++ [ord "q" + 256]) Bench.start.
Proof.
  apply (keys_after_quit_ignored Bench.ops Bench.steady [ord "e"] (ord "q" + 256)
           [ord "e"; ord "r"] Bench.start).
  reflexivity.
Defined.

Lemma quit_cleans_up_witness :
  exists f0 f1,
    run Bench.ops Bench.steady [ord "q"; ord "e"] Bench.start =
      (World Bench.ready
         (map Print banner
            ++ [CaptureArray (Picam 0); Strftime "%Y-%m-%d %H:%M:%S";
                CaptureArray (Picam 1); Strftime "%Y-%m-%d %H:%M:%S"]
            ++ [Imshow "Dual Camera Preview" (reverse f0 ++ reverse f1 ++ [])]
            ++ [WaitKey 1; DestroyAllWindows; Stop (Picam 0); Stop (Picam 1);
                Print "Application terminated"]),
       Ok Break).
Proof.
  destruct (quit_cleans_up Bench.ops Bench.steady (ord "q") [ord "e"] Bench.start
              (Picam 0) (Picam 1) bench_steady_faultless bench_shaped eq_refl eq_refl)
    as (f0 & f1 & Hrun).
  exists f0, f1. exact Hrun.
Defined.


Lemma parameter_keys_step_active_slot_witness :
  exposure_values (self (fst (handle_key Bench.ops Bench.steady (ord "c") Bench.start)))
    = [-1; 0] /\
  brightness_values (self (fst (handle_key Bench.ops Bench.steady (ord "c") Bench.start)))
    = [0; 0].
Proof.
  assert (Hkey : ord "c" ∈ parameter_keys) by (vm_compute; repeat constructor).
  destruct (parameter_keys_step_active_slot Bench.ops Bench.steady (ord "c") Bench.start
              Hkey bench_shaped (or_introl eq_refl)) as (ve & vb & Hve & Hvb & He & Hb & _).
  vm_compute in Hve, Hvb. injection Hve as <-. injection Hvb as <-.
  split; [exact He | exact Hb].
Defined.

Lemma select_then_save_witness :
  handle_key Bench.ops Bench.steady (ord "s")
    (fst (handle_key Bench.ops Bench.steady (ord "2") Bench.brightened)) =
    (World (set_active_camera 1 (self Bench.brightened))
       [Print "Camera 2 selected"; Strftime "%Y%m%d_%H%M%S"; CaptureArray (Picam 1);
        Imwrite "camera_captures/camera2_20240102_030405.jpg" [21; 120; 220];
        Print "Image saved as camera_captures/camera2_20240102_030405.jpg"],
     Ok Next).
Proof.
  assert (Hs : shaped (self Bench.brightened)) by (repeat split).
  destruct (select_then_save Bench.ops Bench.steady 1 Bench.brightened (Picam 0) (Picam 1)
              bench_steady_faultless Hs eq_refl (or_intror eq_refl))
    as (cam & b & Hcam & Hb & _ & Hsave).
  vm_compute in Hcam, Hb. injection Hcam as <-. injection Hb as <-.
  exact Hsave.
Defined.

Lemma save_all_writes_both_witness :
  handle_key Bench.ops Bench.steady (ord "d") Bench.brightened =
    (World (self Bench.brightened)
       [Strftime "%Y%m%d_%H%M%S"; CaptureArray (Picam 0);
        Imwrite "camera_captures/camera1_20240102_030405.jpg" [0; 100; 200];
        Print "Image saved as camera_captures/camera1_20240102_030405.jpg";
        Strftime "%Y%m%d_%H%M%S"; CaptureArray (Picam 1);
        Imwrite "camera_captures/camera2_20240102_030405.jpg" [21; 120; 220];
        Print "Image saved as camera_captures/camera2_20240102_030405.jpg"],
     Ok Next).
Proof.
  assert (Hs : shaped (self Bench.brightened)) by (repeat split).
  exact (save_all_writes_both Bench.ops Bench.steady Bench.brightened (Picam 0) (Picam 1)
           0 20 bench_steady_faultless Hs eq_refl eq_refl).
Defined.

Lemma resolution_index_after_calls_witness :
  current_resolution_idx (self (change_resolution_times Bench.camera0_down 6 Bench.start))
    = 2.
Proof.
  assert (Hidx : 0 <= current_resolution_idx (self Bench.start)
                 < len (resolution_options (self Bench.start)))
    by (vm_compute; split; [discriminate | reflexivity]).
  exact (proj1 (resolution_index_after_calls Bench.camera0_down 6 Bench.start Hidx)).
Defined.

Lemma add_info_overlay_effects_witness :
  (exists frame', snd (add_info_overlay Bench.ops Bench.steady [7; 8; 9] 1 Bench.start)
                  = Ok frame') /\
  snd (add_info_overlay Bench.ops Bench.steady [7; 8; 9] 2 Bench.start) = Raise IndexError.
Proof.
  split.
  - apply (add_info_overlay_effects Bench.ops Bench.steady [7; 8; 9] 1 Bench.start).
    + right. reflexivity.
    + exact bench_shaped.
  - apply (add_info_overlay_effects Bench.ops Bench.steady [7; 8; 9] 2 Bench.start).
    right. vm_compute. discriminate.
Defined.

Lemma change_resolution_fault_witness :
  exists c pre,
    trace (fst (change_resolution Bench.configure_fails Bench.start)) = pre ++ [c] /\
    device_of c <> None /\
    current_resolution_idx (self (fst (change_resolution Bench.configure_fails Bench.start)))
      = 1.
Proof.
  assert (Hn : 0 < len (resolution_options (self Bench.start))) by (vm_compute; reflexivity).
  destruct (change_resolution_fault Bench.configure_fails Bench.start (Picam 0) (Picam 1)
              _ _ eq_refl Hn eq_refl) as (c & pre & _ & Htr & _ & Hdev & Hidx).
  exists c, pre. split; [exact Htr |]. split; [exact Hdev | exact Hidx].
Defined.

